(** * app_render.py: the review scraper and its [/scrape] endpoint

    A shallow embedding of [src/app_render.py]: the [ReviewScraper] methods
    ([detect_platform], [extract_app_id], the two fetchers with their demo
    fallback, [scrape_reviews]) and the Flask handler [scrape].

    Python values are modelled as the code uses them:
    - a [str] is a list of Unicode code points;
    - [None] is [option]'s [None];
    - an exception raised inside a [try] is the [Raise] of an error monad,
      and [except] is a [match] on it;
    - the things the program asks of its environment (the two scraping
      packages, the wall clock, [urlparse], the write under [/tmp]) are the
      fields of a [world] record. *)

From Stdlib Require Import String Ascii DecimalString.
From Stdlib Require Import List NArith ZArith Bool Lia.
Import ListNotations.

Set Implicit Arguments.

(** ** Python strings *)

Module PyStr.

(** A code point, and a [str]. *)
Definition char := N.
Definition str := list char.

(** A literal, written as an ASCII string. *)
Definition u (s : string) : str := map N_of_ascii (list_ascii_of_string s).
Arguments u s%_string.

(** [s.startswith(p)] *)
Fixpoint startswith (p s : str) : bool :=
  match p, s with
  | [], _ => true
  | _ :: _, [] => false
  | a :: p', b :: s' => (a =? b)%N && startswith p' s'
  end.

(** [p in s]: some suffix of [s] starts with [p]. *)
Fixpoint contains (p s : str) : bool :=
  startswith p s ||
  match s with
  | [] => false
  | _ :: s' => contains p s'
  end.

(** [s.replace(old, new)] for one-character [old] and [new]. *)
Definition replace_char (old new : char) (s : str) : str :=
  map (fun c => if (c =? old)%N then new else c) s.

(** [l[:n]], with Python's reading of a negative bound. *)
Definition slice_to {A} (n : Z) (l : list A) : list A :=
  if (0 <=? n)%Z then firstn (Z.to_nat n) l
  else firstn (Z.to_nat (Z.of_nat (length l) + n)) l.

(** [str.isspace] on one code point (CPython's [_PyUnicode_IsWhitespace]). *)
Definition isspace (c : char) : bool :=
  ((9 <=? c) && (c <=? 13) || (28 <=? c) && (c <=? 32)
   || (c =? 133) || (c =? 160) || (c =? 5760)
   || (8192 <=? c) && (c <=? 8202)
   || (c =? 8232) || (c =? 8233) || (c =? 8239) || (c =? 8287)
   || (c =? 12288))%N.

Fixpoint lstrip (s : str) : str :=
  match s with
  | c :: s' => if isspace c then lstrip s' else s
  | [] => []
  end.

(** [s.strip()] *)
Definition strip (s : str) : str := rev (lstrip (rev (lstrip s))).

(** The decimal digits of a natural number, as [str(n)] prints them. *)
Definition decimal (n : N) : str :=
  u (NilZero.string_of_uint (N.to_uint n)).

(** A number printed on at least [w] digits, zero-padded ([%02d], [%04d]). *)
Definition zero_padded (w : nat) (n : N) : str :=
  let d := decimal n in
  repeat 48%N (w - length d) ++ d.

End PyStr.
Import PyStr.

(** ** The two regular expressions of [extract_app_id] *)

Module Re.

(** The longest prefix of [s] whose characters are all in the class [cls]:
    what a greedy [cls+] at the end of a pattern consumes. *)
Fixpoint greedy_run (cls : char -> bool) (s : str) : str :=
  match s with
  | c :: s' => if cls c then c :: greedy_run cls s' else []
  | [] => []
  end.

(** An attempt to match [lit(cls+)] at the start of [s]: group 1. *)
Definition match_here (lit : str) (cls : char -> bool) (s : str) : option str :=
  if startswith lit s then
    match greedy_run cls (skipn (length lit) s) with
    | [] => None
    | g => Some g
    end
  else None.

(** [re.search] for a pattern of the form [lit(cls+)]: the attempts run from
    left to right, and the first that succeeds gives group 1. *)
Fixpoint search (lit : str) (cls : char -> bool) (s : str) : option str :=
  match match_here lit cls s with
  | Some g => Some g
  | None =>
      match s with
      | [] => None
      | _ :: s' => search lit cls s'
      end
  end.

(** The class [[^&]]. *)
Definition not_amp (c : char) : bool := negb (c =? 38)%N.

(** The class [\d] of a [str] pattern: the ASCII digits, and the other
    decimal digits of Unicode, given by [nd] (the table is CPython's). *)
Definition digit (nd : char -> bool) (c : char) : bool :=
  if (c <? 128)%N then ((48 <=? c) && (c <=? 57))%N else nd c.

End Re.

(** ** ReviewScraper: platform detection and identifier extraction *)

(** The platform keys ['google_play'] and ['app_store']. *)
Inductive platform_key : Type := google_play | app_store.

(** [ReviewScraper.detect_platform] *)
Definition detect_platform (url : str) : option platform_key :=
  if contains (u "play.google.com") url then Some google_play
  else if contains (u "apps.apple.com") url || contains (u "itunes.apple.com") url
  then Some app_store
  else None.

(** [ReviewScraper.extract_app_id] *)
Definition extract_app_id (nd : char -> bool) (url : str) (p : platform_key)
  : option str :=
  match p with
  | google_play => Re.search (u "id=") Re.not_amp url
  | app_store => Re.search (u "id") (Re.digit nd) url
  end.

(** ** Dates *)

(** A [datetime], by its fields. The year is printed on four digits, as
    [%Y] prints every year from 1000 on. *)
Record datetime : Type := mk_datetime
  { year : N; month : N; day : N; hour : N; minute : N; second : N }.

Definition pad2 : N -> str := zero_padded 2.

(** [d.strftime('%Y-%m-%d %H:%M:%S')] *)
Definition strftime_date (d : datetime) : str :=
  zero_padded 4 (year d) ++ u "-" ++ pad2 (month d) ++ u "-" ++ pad2 (day d)
  ++ u " " ++ pad2 (hour d) ++ u ":" ++ pad2 (minute d) ++ u ":" ++ pad2 (second d).

(** [d.strftime('%Y%m%d_%H%M%S')] *)
Definition strftime_stamp (d : datetime) : str :=
  zero_padded 4 (year d) ++ pad2 (month d) ++ pad2 (day d)
  ++ u "_" ++ pad2 (hour d) ++ pad2 (minute d) ++ pad2 (second d).

(** ** Exceptions *)

(** The exceptions the program meets, each with its [str(e)]. [ImportError]
    and [ValueError] are the two it names; [Exception] stands for any other
    subclass of [Exception]. *)
Inductive exn : Type :=
| ImportError (msg : str)
| ValueError (msg : str)
| Exception (msg : str).

Definition str_of_exn (e : exn) : str :=
  match e with ImportError m | ValueError m | Exception m => m end.

Inductive result (A : Type) : Type :=
| Ok (a : A)
| Raise (e : exn).
Arguments Ok {A} a.
Arguments Raise {A} e.

Definition bind {A B} (c : result A) (k : A -> result B) : result B :=
  match c with
  | Ok a => k a
  | Raise e => Raise e
  end.

Notation "x <- c ;; k" := (bind c (fun x => k))
  (at level 61, c at next level, right associativity).

(** ** The wall clock

    [datetime.now()] is read several times during one request, so a
    computation that reads it threads the number of readings made so far. *)

Definition Clock (A : Type) : Type := nat -> A * nat.

Definition ret {A} (a : A) : Clock A := fun k => (a, k).

Definition cbind {A B} (c : Clock A) (f : A -> Clock B) : Clock B :=
  fun k => let (a, k') := c k in f a k'.

Notation "x <~ c ;; f" := (cbind c (fun x => f))
  (at level 61, c at next level, right associativity).

(** ** Reviews *)

(** One normalized review: the dict the fetchers build, key by key. *)
Record review : Type := mk_review
  { app_name : str;
    reviewer_name : str;
    rating : Z;
    review_text : str;
    review_date : str;
    helpful_count : Z;
    platform : str }.

(** What the [google_play_scraper] package gives: the reviews of
    [reviews_all], and the title of [app]. *)
Module GooglePlay.
Record raw : Type := mk_raw
  { userName : str; score : Z; content : str; at_ : datetime; thumbsUpCount : Z }.
Record package : Type := mk_package
  { app : str -> result str;
    reviews_all : str -> result (list raw) }.
End GooglePlay.

(** What the [app_store_scraper] package gives: after
    [AppStore(country='us', app_id=...)] and [review(how_many=...)], the
    scraper's [app_name] and [reviews]. *)
Module AppStore.
Record raw : Type := mk_raw
  { userName : str; rating : Z; review : str; date : option datetime }.
Record package : Type := mk_package
  { fetch : str -> Z -> result (option str * list raw) }.
End AppStore.

(** The environment of one request.
    - [clock k] is what the [k]-th call of [datetime.now()] returns;
    - a scraping package that is not installed is [None]: importing it
      raises [ImportError];
    - [urlparse_ok url] says that [urlparse(url)] returns with a scheme and
      a netloc, the handler's test of a well-formed URL;
    - [unicode_Nd] is the table of the decimal digits outside ASCII that
      [\d] accepts;
    - [to_csv_error path] is the exception the write to [path] raises, if
      any.
    What the logger prints is not part of the model. *)
Record world : Type := mk_world
  { clock : nat -> datetime;
    google_play_scraper : option GooglePlay.package;
    app_store_scraper : option AppStore.package;
    urlparse_ok : str -> bool;
    unicode_Nd : char -> bool;
    to_csv_error : str -> option exn }.

(** [datetime.now()] *)
Definition now (w : world) : Clock datetime := fun k => (clock w k, S k).

(** [from pkg import ...] *)
Definition import {A} (name : str) (pkg : option A) : result A :=
  match pkg with
  | Some m => Ok m
  | None => Raise (ImportError (u "No module named '" ++ name ++ u "'"))
  end.

(** Truth value of an [int] or [None]. *)
Definition truthy (n : option Z) : bool :=
  match n with
  | Some z => negb (z =? 0)%Z
  | None => false
  end.

Definition platform_name (p : platform_key) : str :=
  match p with
  | google_play => u "Google Play Store"
  | app_store => u "Apple App Store"
  end.

(** [ReviewScraper._get_demo_data] *)
Definition _get_demo_data (w : world) (p : platform_key) (app_id : str)
  : Clock (list review) :=
  let name := u "Demo App (" ++ app_id ++ u ")" in
  t1 <~ now w ;;
  t2 <~ now w ;;
  t3 <~ now w ;;
  ret
    [ {| app_name := name;
         reviewer_name := u "Demo User 1";
         rating := 5;
         review_text :=
           u "Great app! Works perfectly and has a beautiful interface.";
         review_date := strftime_date t1;
         helpful_count := 15;
         platform := platform_name p |};
      {| app_name := name;
         reviewer_name := u "Demo User 2";
         rating := 4;
         review_text := u "Very useful app. The yellow theme looks amazing!";
         review_date := strftime_date t2;
         helpful_count := 8;
         platform := platform_name p |};
      {| app_name := name;
         reviewer_name := u "Demo User 3";
         rating := 5;
         review_text :=
           u "Excellent functionality and easy to use. Highly recommended!";
         review_date := strftime_date t3;
         helpful_count := 22;
         platform := platform_name p |} ].

(** The dict appended for one Google Play review. *)
Definition google_play_record (name : str) (r : GooglePlay.raw) : review :=
  {| app_name := name;
     reviewer_name := GooglePlay.userName r;
     rating := GooglePlay.score r;
     review_text := GooglePlay.content r;
     review_date := strftime_date (GooglePlay.at_ r);
     helpful_count := GooglePlay.thumbsUpCount r;
     platform := u "Google Play Store" |}.

(** [if max_reviews and len(result) > max_reviews: result = result[:max_reviews]] *)
Definition limit {A} (max_reviews : option Z) (result : list A) : list A :=
  match max_reviews with
  | Some n =>
      if truthy max_reviews && (n <? Z.of_nat (length result))%Z
      then slice_to n result
      else result
  | None => result
  end.

(** The [try] block of [scrape_google_play_reviews]. *)
Definition google_play_try (w : world) (app_id : str) (max_reviews : option Z)
  : result (list review) :=
  pkg <- import (u "google_play_scraper") (google_play_scraper w) ;;
  title <- GooglePlay.app pkg app_id ;;
  result <- GooglePlay.reviews_all pkg app_id ;;
  Ok (map (google_play_record title) (limit max_reviews result)).

(** [ReviewScraper.scrape_google_play_reviews]: both [except] clauses end
    in the demo data. *)
Definition scrape_google_play_reviews (w : world) (app_id : str)
  (max_reviews : option Z) : Clock (list review) :=
  match google_play_try w app_id max_reviews with
  | Ok reviews => ret reviews
  | Raise (ImportError _) => _get_demo_data w google_play app_id
  | Raise _ => _get_demo_data w google_play app_id
  end.

(** The dict appended for one App Store review. *)
Definition app_store_record (name : str) (r : AppStore.raw) : review :=
  {| app_name := name;
     reviewer_name := AppStore.userName r;
     rating := AppStore.rating r;
     review_text := AppStore.review r;
     review_date :=
       match AppStore.date r with
       | Some d => strftime_date d
       | None => []
       end;
     helpful_count := 0;
     platform := u "Apple App Store" |}.

(** [max_reviews or 500] *)
Definition how_many (max_reviews : option Z) : Z :=
  match max_reviews with
  | Some n => if truthy max_reviews then n else 500
  | None => 500
  end.

(** [scraper.app_name or f"App ID {app_id}"] *)
Definition app_store_name (name : option str) (app_id : str) : str :=
  match name with
  | Some (c :: s) => c :: s
  | _ => u "App ID " ++ app_id
  end.

(** The [try] block of [scrape_app_store_reviews]. *)
Definition app_store_try (w : world) (app_id : str) (max_reviews : option Z)
  : result (list review) :=
  pkg <- import (u "app_store_scraper") (app_store_scraper w) ;;
  scraper <- AppStore.fetch pkg app_id (how_many max_reviews) ;;
  Ok (map (app_store_record (app_store_name (fst scraper) app_id)) (snd scraper)).

(** [ReviewScraper.scrape_app_store_reviews] *)
Definition scrape_app_store_reviews (w : world) (app_id : str)
  (max_reviews : option Z) : Clock (list review) :=
  match app_store_try w app_id max_reviews with
  | Ok reviews => ret reviews
  | Raise (ImportError _) => _get_demo_data w app_store app_id
  | Raise _ => _get_demo_data w app_store app_id
  end.

(** The fetcher [scrape_reviews] hands the identifier to. *)
Definition fetcher (p : platform_key)
  : world -> str -> option Z -> Clock (list review) :=
  match p with
  | google_play => scrape_google_play_reviews
  | app_store => scrape_app_store_reviews
  end.

(** [ReviewScraper.scrape_reviews] *)
Definition scrape_reviews (w : world) (url : str) (max_reviews : option Z)
  : Clock (result (list review)) :=
  match detect_platform url with
  | None =>
      ret (Raise (ValueError (u
        "Unsupported URL. Please provide a Google Play Store or Apple App Store URL.")))
  | Some p =>
      match extract_app_id (unicode_Nd w) url p with
      | Some (c :: s) =>
          let app_id := c :: s in
          reviews <~ fetcher p w app_id max_reviews ;;
          ret (Ok reviews)
      | _ => ret (Raise (ValueError (u "Could not extract app ID from URL.")))
      end
  end.

(** ** The [/scrape] endpoint *)

(** The JSON object of the request: [url], when present, is a string;
    [max_reviews] may be absent, [null] or an integer. *)
Record request : Type := mk_request
  { body_url : option str;
    body_max_reviews : option (option Z) }.

(** The JSON of the response: [{'error': ...}] or the success object. *)
Inductive body : Type :=
| error_body (error : str)
| success_body (message filename : str) (review_count : nat) (name : str).

Record response : Type := mk_response
  { json : body; status : Z }.

(** A cell of the data frame. *)
Inductive cell : Type :=
| CStr (s : str)
| CInt (z : Z).

(** [pd.DataFrame(reviews)]: the columns are the keys of the dicts, in the
    order the fetchers insert them, and each review is one row. *)
Definition columns : list str :=
  [ u "app_name"; u "reviewer_name"; u "rating"; u "review_text";
    u "review_date"; u "helpful_count"; u "platform" ].

Definition row_of (r : review) : list cell :=
  [ CStr (app_name r); CStr (reviewer_name r); CInt (rating r);
    CStr (review_text r); CStr (review_date r); CInt (helpful_count r);
    CStr (platform r) ].

(** The file [df.to_csv(filepath, index=False, encoding='utf-8')] leaves:
    its path, the header and the rows handed to pandas. *)
Record csv_file : Type := mk_csv_file
  { filepath : str; header : list str; rows : list (list cell) }.

(** [name.replace(' ', '_').replace('/', '_')[:50]] *)
Definition sanitize (name : str) : str :=
  slice_to 50 (replace_char 47%N 95%N (replace_char 32%N 95%N name)).

(** [f"reviews_{app_name}_{timestamp}.csv"] *)
Definition filename_of (name : str) (timestamp : str) : str :=
  u "reviews_" ++ name ++ u "_" ++ timestamp ++ u ".csv".

(** [data.get('url', '').strip()] *)
Definition url_of (req : request) : str :=
  strip (match body_url req with Some s => s | None => [] end).

(** [data.get('max_reviews', 500)] *)
Definition max_reviews_of (req : request) : option Z :=
  match body_max_reviews req with
  | Some v => v
  | None => Some 500%Z
  end.

(** The handler [scrape]: the response, and the table whose write was
    completed, if any. The outer [except Exception] turns the [ValueError]s
    of [scrape_reviews] and a failed write into a 500 that carries [str(e)];
    what a failed write leaves at its path is the matter of [scrape_on]. *)
Definition scrape (w : world) (req : request) : response * option csv_file :=
  let url := url_of req in
  let max_reviews := max_reviews_of req in
  match url with
  | [] => ({| json := error_body (u "URL is required"); status := 400 |}, None)
  | _ :: _ =>
      if negb (urlparse_ok w url) then
        ({| json := error_body (u "Invalid URL format"); status := 400 |}, None)
      else
        let (outcome, k) := scrape_reviews w url max_reviews 0 in
        match outcome with
        | Raise e => ({| json := error_body (str_of_exn e); status := 500 |}, None)
        | Ok [] =>
            ({| json := error_body (u "No reviews found or unable to scrape");
                status := 404 |}, None)
        | Ok ((first :: _) as reviews) =>
            let timestamp := strftime_stamp (clock w k) in
            let filename := filename_of (sanitize (app_name first)) timestamp in
            let path := u "/tmp/" ++ filename in
            match to_csv_error w path with
            | Some e =>
                ({| json := error_body (str_of_exn e); status := 500 |}, None)
            | None =>
                ({| json :=
                      success_body
                        (u "Successfully scraped "
                           ++ decimal (N.of_nat (length reviews)) ++ u " reviews")
                        filename (length reviews) (app_name first);
                    status := 200 |},
                 Some {| filepath := path; header := columns;
                         rows := map row_of reviews |})
            end
        end
  end.

(** ** A sample environment, for running the model *)

Module Sample.

Definition noon : datetime :=
  {| year := 2024; month := 3; day := 9; hour := 12; minute := 0; second := 5 |}.

(** Accepts what [urlparse] splits into [http(s)] and a host: after [//]
    comes a character that does not end the netloc ([/], [?], [#]) and is
    no bracket. *)
Definition http_url (url : str) : bool :=
  let host_char (c : char) :=
    negb ((c =? 47) || (c =? 63) || (c =? 35) || (c =? 91) || (c =? 93))%N in
  match url with
  | 104%N :: 116%N :: 116%N :: 112%N :: 58%N :: 47%N :: 47%N :: c :: _ =>
      host_char c
  | 104%N :: 116%N :: 116%N :: 112%N :: 115%N :: 58%N :: 47%N :: 47%N :: c :: _ =>
      host_char c
  | _ => false
  end.

(** Neither package is installed. *)
Definition bare : world :=
  {| clock := fun _ => noon;
     google_play_scraper := None;
     app_store_scraper := None;
     urlparse_ok := http_url;
     unicode_Nd := fun _ => false;
     to_csv_error := fun _ => None |}.

Definition raw1 : GooglePlay.raw :=
  {| GooglePlay.userName := u "Ann";
     GooglePlay.score := 4;
     GooglePlay.content := u "Does the job";
     GooglePlay.at_ := noon;
     GooglePlay.thumbsUpCount := 2 |}.

Definition raw2 : GooglePlay.raw :=
  {| GooglePlay.userName := u "Bo";
     GooglePlay.score := 1;
     GooglePlay.content := u "Crashes";
     GooglePlay.at_ := noon;
     GooglePlay.thumbsUpCount := 0 |}.

(** [google_play_scraper] is installed and serves two reviews. *)
Definition with_google_play : world :=
  {| clock := fun _ => noon;
     google_play_scraper :=
       Some {| GooglePlay.app := fun _ => Ok (u "Demo Title");
               GooglePlay.reviews_all := fun _ => Ok [raw1; raw2] |};
     app_store_scraper := None;
     urlparse_ok := http_url;
     unicode_Nd := fun _ => false;
     to_csv_error := fun _ => None |}.

Definition araw : AppStore.raw :=
  {| AppStore.userName := u "Cy";
     AppStore.rating := 5;
     AppStore.review := u "Lovely";
     AppStore.date := None |}.

(** [app_store_scraper] is installed; it serves one review and no name. *)
Definition with_app_store : world :=
  {| clock := fun _ => noon;
     google_play_scraper := None;
     app_store_scraper :=
       Some {| AppStore.fetch := fun _ _ => Ok (None, [araw]) |};
     urlparse_ok := http_url;
     unicode_Nd := fun _ => false;
     to_csv_error := fun _ => None |}.

End Sample.

(** ** The files under [/tmp] and the [/download] endpoint *)

(** [os.path.join('/tmp', name)]: a [name] that starts with [/] replaces
    the directory. *)
Definition tmp_path (name : str) : str :=
  match name with
  | 47%N :: _ => name
  | _ => u "/tmp/" ++ name
  end.

(** What a path of the file system holds: a table written by [scrape],
    something else (a file of another origin, a directory), or what is
    left of a write that failed after the file was opened. *)
Inductive entry : Type :=
| Written (f : csv_file)
| Foreign
| Incomplete.

(** The file system, as the paths that exist; the first binding of a path
    is the current one. *)
Definition filesystem : Type := list (str * entry).

Definition str_eq_dec : forall a b : str, {a = b} + {a <> b} :=
  list_eq_dec N.eq_dec.

Fixpoint fs_lookup (fs : filesystem) (path : str) : option entry :=
  match fs with
  | [] => None
  | (p, e) :: fs' => if str_eq_dec p path then Some e else fs_lookup fs' path
  end.

(** The effect of [df.to_csv(filepath, ...)]: the file is created, or
    replaced. *)
Definition fs_write (fs : filesystem) (f : csv_file) : filesystem :=
  (filepath f, Written f) :: fs.

(** A write that fails does so before the file is opened, and the path is
    as it was, or after: opening the file for writing empties it, so what
    stays is no complete table. *)
Inductive failed_write : Type :=
| BeforeOpen
| AfterOpen.

(** The [filepath] the handler hands to [to_csv], when it gets that far:
    the URL passed the validation and the list of reviews is not empty. *)
Definition write_target (w : world) (req : request) : option str :=
  match url_of req with
  | [] => None
  | _ :: _ =>
      if negb (urlparse_ok w (url_of req)) then None
      else
        let (outcome, k) :=
          scrape_reviews w (url_of req) (max_reviews_of req) 0 in
        match outcome with
        | Ok (first :: _) =>
            Some (u "/tmp/"
                    ++ filename_of (sanitize (app_name first))
                         (strftime_stamp (clock w k)))
        | _ => None
        end
  end.

(** The handler [scrape] with its effect on the file system. A write that
    is completed creates or replaces the file; [failure path] says how far
    a write that raises had gone. *)
Definition scrape_on (w : world) (failure : str -> failed_write)
  (fs : filesystem) (req : request) : response * filesystem :=
  let (r, written) := scrape w req in
  (r, match written with
      | Some f => fs_write fs f
      | None =>
          match write_target w req with
          | Some path =>
              match failure path with
              | AfterOpen => (path, Incomplete) :: fs
              | BeforeOpen => fs
              end
          | None => fs
          end
      end).

(** A sequence of [POST /scrape] requests, each in its own environment,
    served one after the other: the file system they leave. *)
Fixpoint scrape_all (fs : filesystem)
  (requests : list (world * (str -> failed_write) * request)) : filesystem :=
  match requests with
  | [] => fs
  | (w, failure, req) :: rest =>
      scrape_all (snd (scrape_on w failure fs req)) rest
  end.

(** The answer of [/download/<filename>]: the attachment of [send_file], or
    a JSON error with its status. *)
Inductive download_response : Type :=
| attachment (download_name : str) (e : entry)
| download_error (error : str) (code : Z).

(** The handler [download_file]. [os.path.exists(path)] holds when the
    path has an entry. [send_file_error path] is the exception [send_file]
    raises on [path], if any; the [except] turns it into a 500. *)
Definition download_file (send_file_error : str -> option exn)
  (fs : filesystem) (filename : str) : download_response :=
  let path := tmp_path filename in
  match fs_lookup fs path with
  | Some e =>
      match send_file_error path with
      | Some ex => download_error (str_of_exn ex) 500
      | None => attachment filename e
      end
  | None =>
      download_error (u "File not found. Please scrape reviews first.") 404
  end.

(** ** A sample environment whose clock ticks *)

Module Ticking.

(** The [k]-th reading of the clock is [k] seconds after 12:00:05. *)
Definition tick (k : nat) : datetime :=
  {| year := 2024; month := 3; day := 9; hour := 12; minute := 0;
     second := 5 + N.of_nat k |}.

(** Neither package is installed. *)
Definition bare : world :=
  {| clock := tick;
     google_play_scraper := None;
     app_store_scraper := None;
     urlparse_ok := Sample.http_url;
     unicode_Nd := fun _ => false;
     to_csv_error := fun _ => None |}.

(** Neither package is installed, and every write raises. *)
Definition read_only : world :=
  {| clock := tick;
     google_play_scraper := None;
     app_store_scraper := None;
     urlparse_ok := Sample.http_url;
     unicode_Nd := fun _ => false;
     to_csv_error := fun _ => Some (Exception (u "No space left on device")) |}.

End Ticking.

(** ** Vocabulary of the statements *)

(** A date of the calendar with a year of four digits, as [datetime.now()]
    returns. *)
Definition is_date (d : datetime) : Prop :=
  (1000 <= year d <= 9999 /\ 1 <= month d <= 12 /\ 1 <= day d <= 31
   /\ hour d <= 23 /\ minute d <= 59 /\ second d <= 59)%N.


(** [p] occurs in [s] as a substring. *)
Definition occurs (p s : str) : Prop :=
  exists pre post, s = pre ++ p ++ post.

(** Where a greedy run of the class [cls] stops: at the end of the text, or
    before a character outside the class. *)
Definition stops (cls : char -> bool) (post : str) : Prop :=
  match post with
  | [] => True
  | c :: _ => cls c = false
  end.

(** The external source of platform [p] is unavailable, or raises while it
    is invoked for [app_id]. *)
Definition source_fails (w : world) (p : platform_key) (app_id : str)
  (max_reviews : option Z) : Prop :=
  match p with
  | google_play =>
      match google_play_scraper w with
      | None => True
      | Some pkg =>
          (exists e, GooglePlay.app pkg app_id = Raise e)
          \/ (exists e, GooglePlay.reviews_all pkg app_id = Raise e)
      end
  | app_store =>
      match app_store_scraper w with
      | None => True
      | Some pkg =>
          exists e, AppStore.fetch pkg app_id (how_many max_reviews) = Raise e
      end
  end.

(** The external source of platform [p] answers for [app_id]: [upstream] is
    its whole answer, each review mapped to a record, nothing dropped. *)
Inductive source_returns (w : world) (app_id : str) (max_reviews : option Z)
  : platform_key -> list review -> Prop :=
| google_play_returns pkg title rs :
    google_play_scraper w = Some pkg ->
    GooglePlay.app pkg app_id = Ok title ->
    GooglePlay.reviews_all pkg app_id = Ok rs ->
    source_returns w app_id max_reviews google_play
      (map (google_play_record title) rs)
| app_store_returns pkg name rs :
    app_store_scraper w = Some pkg ->
    AppStore.fetch pkg app_id (how_many max_reviews) = Ok (name, rs) ->
    source_returns w app_id max_reviews app_store
      (map (app_store_record (app_store_name name app_id)) rs).

(** * Properties *)

(** ** Substring tests *)

Section Substrings.

Lemma startswith_app (p post : str) : startswith p (p ++ post) = true.
Proof.
  induction p as [|a p IH]; simpl; [reflexivity|].
  now rewrite N.eqb_refl, IH.
Qed.

Lemma startswith_inv (p s : str) :
  startswith p s = true -> exists post, s = p ++ post.
Proof.
  revert s; induction p as [|a p IH]; intros s H.
  - now exists s.
  - destruct s as [|b s]; simpl in H; [discriminate|].
    apply andb_true_iff in H as [Hab Hps].
    apply N.eqb_eq in Hab; subst b.
    destruct (IH _ Hps) as [post ->].
    now exists post.
Qed.

Lemma startswith_iff (p s : str) :
  startswith p s = true <-> exists post, s = p ++ post.
Proof.
  split; [apply startswith_inv|].
  intros [post ->]; apply startswith_app.
Qed.

Lemma contains_cons (p : str) (c : char) (s : str) :
  contains p (c :: s) = startswith p (c :: s) || contains p s.
Proof. reflexivity. Qed.

Lemma contains_nil (p : str) : contains p [] = startswith p [].
Proof. simpl; now rewrite orb_false_r. Qed.

(** [p in s] holds exactly when [p] occurs in [s]. *)
Lemma contains_iff (p s : str) : contains p s = true <-> occurs p s.
Proof.
  split.
  - induction s as [|c s IH].
    + rewrite contains_nil; intros H.
      apply startswith_inv in H as [post E].
      now exists [], post.
    + rewrite contains_cons; intros H.
      apply orb_true_iff in H as [H|H].
      * apply startswith_inv in H as [post E].
        now exists [], post.
      * destruct (IH H) as (pre & post & ->).
        now exists (c :: pre), post.
  - intros (pre & post & ->).
    induction pre as [|c pre IH]; simpl app.
    + destruct (p ++ post) eqn:E.
      * rewrite contains_nil, <- E; apply startswith_app.
      * rewrite contains_cons, <- E, startswith_app; reflexivity.
    + rewrite contains_cons, IH; apply orb_true_r.
Qed.

Lemma contains_false_iff (p s : str) : contains p s = false <-> ~ occurs p s.
Proof.
  rewrite <- contains_iff.
  destruct (contains p s); split; intros H; try reflexivity; try discriminate.
  now elim H.
Qed.

End Substrings.

(** ** The regular expressions *)

Section Regex.

Variable lit : str.
Variable cls : char -> bool.

Lemma greedy_run_split (s : str) :
  exists post,
    s = Re.greedy_run cls s ++ post
    /\ forallb cls (Re.greedy_run cls s) = true
    /\ stops cls post.
Proof.
  induction s as [|c s (post & E & Hall & Hst)]; simpl.
  - now exists [].
  - destruct (cls c) eqn:Hc.
    + exists post; simpl; rewrite Hc, Hall; repeat split; trivial.
      now rewrite <- E.
    + exists (c :: s); repeat split; trivial.
Qed.

Lemma greedy_run_app (g post : str) :
  forallb cls g = true -> stops cls post -> Re.greedy_run cls (g ++ post) = g.
Proof.
  intros Hall Hst; induction g as [|c g IH]; simpl in *.
  - destruct post as [|c post]; simpl in *; [reflexivity|now rewrite Hst].
  - apply andb_true_iff in Hall as [Hc Hg].
    now rewrite Hc, IH.
Qed.

Lemma skipn_lit_app (rest : str) : skipn (length lit) (lit ++ rest) = rest.
Proof.
  rewrite skipn_app, skipn_all, Nat.sub_diag; reflexivity.
Qed.

(** One attempt succeeds with group [g] exactly when the text reads
    [lit], then the non-empty run [g] of the class, and the run cannot be
    extended. *)
Lemma match_here_iff (s g : str) :
  Re.match_here lit cls s = Some g <->
  exists post,
    s = lit ++ g ++ post /\ g <> [] /\ forallb cls g = true /\ stops cls post.
Proof.
  unfold Re.match_here; split.
  - destruct (startswith lit s) eqn:Hs; [|discriminate].
    apply startswith_inv in Hs as [rest ->].
    rewrite skipn_lit_app.
    destruct (greedy_run_split rest) as (post & E & Hall & Hst).
    destruct (Re.greedy_run cls rest) as [|c r] eqn:Hr; [discriminate|].
    intros [= <-].
    exists post; repeat split; trivial; [now rewrite <- E|discriminate].
  - intros (post & -> & Hne & Hall & Hst).
    rewrite startswith_app, skipn_lit_app, greedy_run_app by trivial.
    destruct g; [now elim Hne|reflexivity].
Qed.

Lemma search_unfold (s : str) :
  Re.search lit cls s =
  match Re.match_here lit cls s with
  | Some g => Some g
  | None => match s with [] => None | _ :: s' => Re.search lit cls s' end
  end.
Proof. destruct s; reflexivity. Qed.

(** No attempt succeeds: the search finds nothing. *)
Lemma search_None_iff (s : str) :
  Re.search lit cls s = None <->
  forall a b, s = a ++ b -> Re.match_here lit cls b = None.
Proof.
  induction s as [|c s IH]; rewrite search_unfold.
  - split.
    + intros H a b E.
      symmetry in E; apply app_eq_nil in E as [_ ->].
      destruct (Re.match_here lit cls []); [discriminate|reflexivity].
    + intros H; now rewrite (H [] [] eq_refl).
  - split.
    + intros H a b E.
      destruct (Re.match_here lit cls (c :: s)) eqn:Hm; [discriminate|].
      destruct a as [|c' a]; simpl in E.
      * now subst b.
      * injection E as _ E.
        apply (proj1 IH H a b E).
    + intros H; rewrite (H [] (c :: s) eq_refl).
      apply IH; intros a b E.
      apply (H (c :: a) b); now rewrite E.
Qed.

(** The search returns the group of the leftmost attempt that succeeds. *)
Lemma search_Some_iff (s g : str) :
  Re.search lit cls s = Some g <->
  exists pre rest,
    s = pre ++ rest
    /\ Re.match_here lit cls rest = Some g
    /\ forall a b, pre = a ++ b -> b <> [] ->
         Re.match_here lit cls (b ++ rest) = None.
Proof.
  induction s as [|c s IH]; rewrite search_unfold.
  - split.
    + destruct (Re.match_here lit cls []) eqn:Hm; [|discriminate].
      intros [= <-]; exists [], []; repeat split; trivial.
      intros a b E Hb; symmetry in E; apply app_eq_nil in E as [_ ->].
      now elim Hb.
    + intros (pre & rest & E & Hm & _).
      symmetry in E; apply app_eq_nil in E as [_ ->].
      now rewrite Hm.
  - split.
    + destruct (Re.match_here lit cls (c :: s)) eqn:Hm.
      * intros [= <-]; exists [], (c :: s); repeat split; trivial.
        intros a b E Hb; symmetry in E; apply app_eq_nil in E as [_ ->].
        now elim Hb.
      * intros H; apply IH in H as (pre & rest & -> & Hr & Hearlier).
        exists (c :: pre), rest; repeat split; trivial.
        intros a b E Hb.
        destruct a as [|c' a]; simpl in E.
        -- subst b; exact Hm.
        -- injection E as _ E; now apply (Hearlier a b).
    + intros (pre & rest & E & Hr & Hearlier).
      destruct pre as [|c' pre]; simpl in E.
      * subst rest; now rewrite Hr.
      * injection E as <- ->.
        assert (H0 := Hearlier [] (c :: pre) eq_refl).
        simpl in H0; rewrite H0 by discriminate.
        apply IH; exists pre, rest; repeat split; trivial.
        intros a b E Hb; apply (Hearlier (c :: a) b); trivial.
        now rewrite E.
Qed.

(** Group 1 is never empty: [cls+] takes at least one character. *)
Lemma search_nonempty (s g : str) : Re.search lit cls s = Some g -> g <> [].
Proof.
  intros H; apply search_Some_iff in H as (pre & rest & _ & Hm & _).
  apply match_here_iff in Hm as (post & _ & Hne & _); exact Hne.
Qed.

End Regex.

(** ** Platform detection *)

(** C2, the claim as stated fails: this URL contains [apps.apple.com], and
    it is classified as Google Play, because [play.google.com] is tested
    first. *)
Lemma detect_platform_google_play_wins :
  occurs (u "apps.apple.com")
    (u "https://play.google.com/store/apps/details?id=apps.apple.com")
  /\ detect_platform
       (u "https://play.google.com/store/apps/details?id=apps.apple.com")
     = Some google_play.
Proof.
  split; [apply contains_iff|]; vm_compute; reflexivity.
Qed.

(** C2, amended: [detect_platform] is a total function of the URL, and its
    three answers are exactly these. Google Play: the URL contains
    [play.google.com]. App Store: it does not, and it contains
    [apps.apple.com] or [itunes.apple.com]. Unsupported ([None]): it
    contains none of the three. *)
Theorem detect_platform_classifies (url : str) :
  (detect_platform url = Some google_play
     <-> occurs (u "play.google.com") url)
  /\ (detect_platform url = Some app_store
     <-> ~ occurs (u "play.google.com") url
         /\ (occurs (u "apps.apple.com") url
             \/ occurs (u "itunes.apple.com") url))
  /\ (detect_platform url = None
     <-> ~ occurs (u "play.google.com") url
         /\ ~ occurs (u "apps.apple.com") url
         /\ ~ occurs (u "itunes.apple.com") url).
Proof.
  unfold detect_platform.
  set (gp := u "play.google.com").
  set (apps := u "apps.apple.com").
  set (itunes := u "itunes.apple.com").
  rewrite <- !contains_false_iff, <- !contains_iff.
  destruct (contains gp url), (contains apps url), (contains itunes url);
    simpl; intuition congruence.
Qed.

(** ** Identifier extraction *)

(** C3, a failing input: the first parameter's name ends in [id], so the
    pattern [id=([^&]+)] matches inside it and the value returned is that of
    [pcampaignid], not of [id]. *)
Theorem extract_app_id_google_play_wrong_parameter (nd : char -> bool) :
  let url :=
    u "https://play.google.com/store/apps/details?pcampaignid=web_share&id=com.example.app" in
  detect_platform url = Some google_play
  /\ extract_app_id nd url google_play = Some (u "web_share").
Proof. split; vm_compute; reflexivity. Qed.

(** With [id] as the first parameter the value is returned as the spec's
    example has it, up to the [&]. *)
Lemma extract_app_id_google_play_example (nd : char -> bool) :
  extract_app_id nd
    (u "https://play.google.com/store/apps/details?id=com.example.app&other=1")
    google_play
  = Some (u "com.example.app").
Proof. vm_compute; reflexivity. Qed.

(** A URL with no [id] parameter at all still yields a value. *)
Lemma extract_app_id_google_play_no_id_parameter (nd : char -> bool) :
  extract_app_id nd
    (u "https://play.google.com/store/apps/details?pcampaignid=web_share")
    google_play
  = Some (u "web_share").
Proof. vm_compute; reflexivity. Qed.

(** What the Google Play pattern returns in general: the text after the
    leftmost [id=] that a character other than [&] follows, up to the next
    [&] or the end. *)
Lemma extract_app_id_google_play_spec (nd : char -> bool) (url g : str) :
  extract_app_id nd url google_play = Some g <->
  exists pre post,
    url = pre ++ u "id=" ++ g ++ post
    /\ g <> [] /\ forallb Re.not_amp g = true /\ stops Re.not_amp post
    /\ forall a b, pre = a ++ b -> b <> [] ->
         Re.match_here (u "id=") Re.not_amp (b ++ u "id=" ++ g ++ post) = None.
Proof.
  unfold extract_app_id; rewrite search_Some_iff; split.
  - intros (pre & rest & -> & Hm & Hfirst).
    apply match_here_iff in Hm as (post & -> & Hne & Hall & Hst).
    exists pre, post; repeat split; trivial.
  - intros (pre & post & -> & Hne & Hall & Hst & Hfirst).
    exists pre, (u "id=" ++ g ++ post); repeat split; trivial.
    apply match_here_iff; exists post; repeat split; trivial.
Qed.

(** C4, a failing input: the slug [covid19-tracker] contains [id19], so the
    pattern [id(\d+)] matches there and [19] is returned, not the number
    after [/id]. *)
Theorem extract_app_id_app_store_wrong_number (nd : char -> bool) :
  let url := u "https://apps.apple.com/us/app/covid19-tracker/id123456789" in
  detect_platform url = Some app_store
  /\ extract_app_id nd url app_store = Some (u "19").
Proof. split; vm_compute; reflexivity. Qed.

(** With no digit after an earlier [id], the number after [/id] is
    returned as the spec's example has it. *)
Lemma extract_app_id_app_store_example (nd : char -> bool) :
  extract_app_id nd
    (u "https://apps.apple.com/us/app/video-editor/id123456789") app_store
  = Some (u "123456789").
Proof. vm_compute; reflexivity. Qed.

(** What the App Store pattern returns in general: the digits after the
    leftmost [id] that a digit follows. *)
Lemma extract_app_id_app_store_spec (nd : char -> bool) (url g : str) :
  extract_app_id nd url app_store = Some g <->
  exists pre post,
    url = pre ++ u "id" ++ g ++ post
    /\ g <> [] /\ forallb (Re.digit nd) g = true /\ stops (Re.digit nd) post
    /\ forall a b, pre = a ++ b -> b <> [] ->
         Re.match_here (u "id") (Re.digit nd) (b ++ u "id" ++ g ++ post) = None.
Proof.
  unfold extract_app_id; rewrite search_Some_iff; split.
  - intros (pre & rest & -> & Hm & Hfirst).
    apply match_here_iff in Hm as (post & -> & Hne & Hall & Hst).
    exists pre, post; repeat split; trivial.
  - intros (pre & post & -> & Hne & Hall & Hst & Hfirst).
    exists pre, (u "id" ++ g ++ post); repeat split; trivial.
    apply match_here_iff; exists post; repeat split; trivial.
Qed.

(** [extract_app_id] never returns an empty identifier. *)
Lemma extract_app_id_nonempty nd url p g :
  extract_app_id nd url p = Some g -> g <> [].
Proof.
  destruct p; unfold extract_app_id; apply search_nonempty.
Qed.

(** ** The fetchers *)

Lemma slice_to_map {A B} (f : A -> B) (n : Z) (l : list A) :
  slice_to n (map f l) = map f (slice_to n l).
Proof.
  unfold slice_to; rewrite length_map.
  destruct (0 <=? n)%Z; apply firstn_map.
Qed.

Lemma limit_map {A B} (f : A -> B) (max_reviews : option Z) (l : list A) :
  limit max_reviews (map f l) = map f (limit max_reviews l).
Proof.
  unfold limit; destruct max_reviews as [n|]; [|reflexivity].
  rewrite length_map.
  destruct (truthy (Some n) && (n <? Z.of_nat (length l))%Z);
    [apply slice_to_map|reflexivity].
Qed.

(** With a positive bound the guarded slice is the prefix of that length. *)
Lemma limit_positive {A} (n : Z) (l : list A) :
  (0 < n)%Z -> limit (Some n) l = firstn (Z.to_nat n) l.
Proof.
  intros Hn; unfold limit, slice_to, truthy.
  replace (n =? 0)%Z with false by (symmetry; apply Z.eqb_neq; lia).
  replace (0 <=? n)%Z with true by (symmetry; apply Z.leb_le; lia).
  simpl; destruct (n <? Z.of_nat (length l))%Z eqn:Hlt; [reflexivity|].
  apply Z.ltb_ge in Hlt.
  symmetry; apply firstn_all2; lia.
Qed.

(** A falsy bound leaves the list as it is. *)
Lemma limit_falsy {A} (max_reviews : option Z) (l : list A) :
  truthy max_reviews = false -> limit max_reviews l = l.
Proof.
  unfold limit; destruct max_reviews as [n|]; [|reflexivity].
  now intros ->.
Qed.

Lemma get_demo_data_eq (w : world) (p : platform_key) (app_id : str) (k : nat) :
  exists r1 r2 r3,
    _get_demo_data w p app_id k = ([r1; r2; r3], (3 + k)%nat)
    /\ (forall r, In r [r1; r2; r3] ->
          platform r = platform_name p
          /\ app_name r = u "Demo App (" ++ app_id ++ u ")")
    /\ helpful_count r1 = 15%Z /\ helpful_count r2 = 8%Z
    /\ helpful_count r3 = 22%Z.
Proof.
  unfold _get_demo_data, cbind, now, ret.
  do 3 eexists; split; [reflexivity|].
  split; [|repeat split].
  intros r [<-|[<-|[<-|[]]]]; split; reflexivity.
Qed.

(** Both [except] clauses of a fetcher lead to the demo data. *)
Lemma fetcher_fails (w : world) (p : platform_key) (app_id : str)
  (max_reviews : option Z) (k : nat) :
  source_fails w p app_id max_reviews ->
  fetcher p w app_id max_reviews k = _get_demo_data w p app_id k.
Proof.
  destruct p; simpl;
    unfold scrape_google_play_reviews, google_play_try,
      scrape_app_store_reviews, app_store_try, import.
  - destruct (google_play_scraper w) as [pkg|]; simpl; [|reflexivity].
    intros [[e He]|[e He]].
    + rewrite He; simpl; now destruct e.
    + destruct (GooglePlay.app pkg app_id) as [title|e']; simpl.
      * rewrite He; simpl; now destruct e.
      * now destruct e'.
  - destruct (app_store_scraper w) as [pkg|]; simpl; [|reflexivity].
    intros [e He]; rewrite He; simpl; now destruct e.
Qed.

(** When the source answers, Google Play's answer goes through the guarded
    slice and the App Store's is returned whole; the clock is not read. *)
Lemma fetcher_returns (w : world) (p : platform_key) (app_id : str)
  (max_reviews : option Z) (k : nat) (upstream : list review) :
  source_returns w app_id max_reviews p upstream ->
  fetcher p w app_id max_reviews k =
  (match p with
   | google_play => limit max_reviews upstream
   | app_store => upstream
   end, k).
Proof.
  intros [pkg title rs Hpkg Happ Hrs|pkg name rs Hpkg Hfetch]; simpl.
  - unfold scrape_google_play_reviews, google_play_try, import.
    rewrite Hpkg; simpl; rewrite Happ; simpl; rewrite Hrs; simpl.
    now rewrite limit_map.
  - unfold scrape_app_store_reviews, app_store_try, import.
    rewrite Hpkg; simpl; rewrite Hfetch; reflexivity.
Qed.

(** A source either fails or answers. *)
Lemma source_fails_or_returns (w : world) (p : platform_key) (app_id : str)
  (max_reviews : option Z) :
  source_fails w p app_id max_reviews
  \/ exists upstream, source_returns w app_id max_reviews p upstream.
Proof.
  destruct p; unfold source_fails.
  - destruct (google_play_scraper w) as [pkg|] eqn:Hpkg; [|now left].
    destruct (GooglePlay.app pkg app_id) as [title|e] eqn:Happ;
      [|left; left; now exists e].
    destruct (GooglePlay.reviews_all pkg app_id) as [rs|e] eqn:Hrs;
      [|left; right; now exists e].
    right; eexists; eapply google_play_returns; eassumption.
  - destruct (app_store_scraper w) as [pkg|] eqn:Hpkg; [|now left].
    destruct (AppStore.fetch pkg app_id (how_many max_reviews))
      as [[name rs]|e] eqn:Hf; [|left; now exists e].
    right; eexists; eapply app_store_returns; eassumption.
Qed.

(** C1: when the external source of the requested platform is missing or
    raises, the fetcher returns the three demo records and nothing else.
    Each carries the platform's display name and the app name
    [Demo App (<app_id>)], in which the identifier occurs. The fetcher is a
    total function into lists: no error leaves it. *)
Theorem fallback_on_source_failure (w : world) (p : platform_key)
  (app_id : str) (max_reviews : option Z) (k : nat) :
  source_fails w p app_id max_reviews ->
  exists r1 r2 r3,
    fst (fetcher p w app_id max_reviews k) = [r1; r2; r3]
    /\ forall r, In r [r1; r2; r3] ->
         platform r =
           match p with
           | google_play => u "Google Play Store"
           | app_store => u "Apple App Store"
           end
         /\ app_name r = u "Demo App (" ++ app_id ++ u ")"
         /\ occurs app_id (app_name r).
Proof.
  intros Hfail; rewrite (fetcher_fails _ _ _ _ k Hfail).
  destruct (get_demo_data_eq w p app_id k) as (r1 & r2 & r3 & E & Hall & _).
  exists r1, r2, r3; rewrite E; split; [reflexivity|].
  intros r Hr; destruct (Hall r Hr) as [Hp Hn].
  rewrite Hp, Hn; split; [now destruct p|split; [reflexivity|]].
  now exists (u "Demo App ("), (u ")").
Qed.

(** The fallback on the sample environment with no package installed. *)
Lemma fallback_on_source_failure_witness :
  source_fails Sample.bare app_store (u "123456789") (Some 500%Z)
  /\ exists r1 r2 r3,
       fst (fetcher app_store Sample.bare (u "123456789") (Some 500%Z) 0)
       = [r1; r2; r3]
       /\ forall r, In r [r1; r2; r3] ->
            platform r = u "Apple App Store"
            /\ app_name r = u "Demo App (" ++ u "123456789" ++ u ")"
            /\ occurs (u "123456789") (app_name r).
Proof.
  split; [exact I|].
  apply (fallback_on_source_failure Sample.bare app_store (u "123456789")
           (Some 500%Z) 0 I).
Defined.

(** ** The record limit *)

Lemma In_firstn {A} (n : nat) (l : list A) (x : A) :
  In x (firstn n l) -> In x l.
Proof.
  revert l; induction n as [|n IH]; intros [|a l]; simpl; try tauto.
  intros [->|H]; [now left|right; now apply IH].
Qed.

Lemma limit_incl {A} (max_reviews : option Z) (l : list A) (x : A) :
  In x (limit max_reviews l) -> In x l.
Proof.
  unfold limit, slice_to; destruct max_reviews as [n|]; [|trivial].
  destruct (truthy (Some n) && (n <? Z.of_nat (length l))%Z); [|trivial].
  destruct (0 <=? n)%Z; apply In_firstn.
Qed.

(** C6, the claim as stated fails: with [max_reviews = 0] and a source that
    answers with two reviews, the Google Play fetcher returns both. *)
Lemma google_play_limit_zero_returns_all :
  source_returns Sample.with_google_play (u "com.demo.app") (Some 0%Z)
    google_play
    (map (google_play_record (u "Demo Title")) [Sample.raw1; Sample.raw2])
  /\ length (fst (fetcher google_play Sample.with_google_play
                    (u "com.demo.app") (Some 0%Z) 0)) = 2%nat.
Proof.
  split; [|reflexivity].
  now eapply google_play_returns.
Qed.

(** C6, amended: when the external source answers, the Google Play fetcher
    with a positive [max_reviews = n] returns the first [n] records of the
    answer, in order: at most [n] of them, and the whole answer when it
    holds no more than [n]. The App Store fetcher passes the bound to the
    source ([how_many], 500 when the bound is [None] or 0) and returns the
    whole answer, cutting nothing itself. A request that names no bound
    asks for 500. *)
Theorem fetcher_limit (w : world) (p : platform_key) (app_id : str)
  (max_reviews : option Z) (k : nat) (upstream : list review) :
  source_returns w app_id max_reviews p upstream ->
  let out := fst (fetcher p w app_id max_reviews k) in
  (p = google_play ->
   forall n, max_reviews = Some n -> (0 < n)%Z ->
     out = firstn (Z.to_nat n) upstream
     /\ (Z.of_nat (length out) <= n)%Z
     /\ ((Z.of_nat (length upstream) <= n)%Z -> out = upstream))
  /\ (p = app_store -> out = upstream)
  /\ (forall url,
        max_reviews_of {| body_url := url; body_max_reviews := None |}
        = Some 500%Z).
Proof.
  intros Hret out; subst out.
  rewrite (fetcher_returns k Hret); simpl fst.
  split; [|split; [now intros ->|reflexivity]].
  intros -> n -> Hn.
  rewrite limit_positive by trivial.
  split; [reflexivity|split].
  - rewrite length_firstn; lia.
  - intros Hle; apply firstn_all2; lia.
Qed.

(** A bound of 1 on a source that answers with two reviews. *)
Lemma fetcher_limit_witness :
  let w := Sample.with_google_play in
  let upstream :=
    map (google_play_record (u "Demo Title")) [Sample.raw1; Sample.raw2] in
  source_returns w (u "com.demo.app") (Some 1%Z) google_play upstream
  /\ fst (fetcher google_play w (u "com.demo.app") (Some 1%Z) 0)
     = firstn 1 upstream.
Proof.
  assert (H : source_returns Sample.with_google_play (u "com.demo.app")
                (Some 1%Z) google_play
                (map (google_play_record (u "Demo Title"))
                   [Sample.raw1; Sample.raw2]))
    by now eapply google_play_returns.
  split; [exact H|].
  apply (proj1 (fetcher_limit 0 H) eq_refl 1%Z eq_refl); lia.
Defined.

(** With a falsy [max_reviews] ([None] or 0) the guard of the Google Play
    fetcher is skipped, and every review of the source's answer comes back,
    one record each. *)
Lemma google_play_falsy_limit (w : world) (app_id : str)
  (max_reviews : option Z) (k : nat) (pkg : GooglePlay.package)
  (title : str) (rs : list GooglePlay.raw) :
  google_play_scraper w = Some pkg ->
  GooglePlay.app pkg app_id = Ok title ->
  GooglePlay.reviews_all pkg app_id = Ok rs ->
  max_reviews = None \/ max_reviews = Some 0%Z ->
  scrape_google_play_reviews w app_id max_reviews k
  = (map (google_play_record title) rs, k)
  /\ length (fst (scrape_google_play_reviews w app_id max_reviews k))
     = length rs.
Proof.
  intros Hpkg Happ Hrs Hmax.
  assert (E : scrape_google_play_reviews w app_id max_reviews k
              = (map (google_play_record title) rs, k)).
  { change (scrape_google_play_reviews w app_id max_reviews k)
      with (fetcher google_play w app_id max_reviews k).
    rewrite (fetcher_returns k
               (@google_play_returns w app_id max_reviews pkg title rs
                  Hpkg Happ Hrs)).
    rewrite limit_falsy; [reflexivity|].
    now destruct Hmax as [->| ->]. }
  split; [exact E|].
  rewrite E; simpl fst; apply length_map.
Qed.

(** ** The handler *)

Lemma scrape_reviews_fetches (w : world) (url : str) (max_reviews : option Z)
  (p : platform_key) (app_id : str) (k : nat) :
  detect_platform url = Some p ->
  extract_app_id (unicode_Nd w) url p = Some app_id ->
  scrape_reviews w url max_reviews k
  = (Ok (fst (fetcher p w app_id max_reviews k)),
     snd (fetcher p w app_id max_reviews k)).
Proof.
  intros Hp Hid; unfold scrape_reviews; rewrite Hp, Hid.
  destruct app_id as [|c s]; [now apply extract_app_id_nonempty in Hid|].
  unfold cbind, ret.
  now destruct (fetcher p w (c :: s) max_reviews k).
Qed.

(** A [ValueError] of [scrape_reviews] reaches the outer [except]. *)
Lemma scrape_raises (w : world) (req : request) (e : exn) (k : nat) :
  url_of req <> [] ->
  urlparse_ok w (url_of req) = true ->
  scrape_reviews w (url_of req) (max_reviews_of req) 0 = (Raise e, k) ->
  scrape w req = ({| json := error_body (str_of_exn e); status := 500 |}, None).
Proof.
  intros Hne Hok Hsr; unfold scrape; cbv zeta.
  destruct (url_of req) as [|c s] eqn:Hurl; [now elim Hne|].
  now rewrite Hok, Hsr.
Qed.

(** An empty list of reviews is a 404. *)
Lemma scrape_no_reviews (w : world) (req : request) (k : nat) :
  url_of req <> [] ->
  urlparse_ok w (url_of req) = true ->
  scrape_reviews w (url_of req) (max_reviews_of req) 0 = (Ok [], k) ->
  scrape w req
  = ({| json := error_body (u "No reviews found or unable to scrape");
        status := 404 |}, None).
Proof.
  intros Hne Hok Hsr; unfold scrape; cbv zeta.
  destruct (url_of req) as [|c s] eqn:Hurl; [now elim Hne|].
  now rewrite Hok, Hsr.
Qed.

(** A non-empty list is written under [/tmp] and reported. *)
Lemma scrape_exports (w : world) (req : request) (first : review)
  (rest : list review) (k : nat) :
  url_of req <> [] ->
  urlparse_ok w (url_of req) = true ->
  scrape_reviews w (url_of req) (max_reviews_of req) 0
  = (Ok (first :: rest), k) ->
  let filename :=
    filename_of (sanitize (app_name first)) (strftime_stamp (clock w k)) in
  scrape w req =
  match to_csv_error w (u "/tmp/" ++ filename) with
  | Some e => ({| json := error_body (str_of_exn e); status := 500 |}, None)
  | None =>
      ({| json :=
            success_body
              (u "Successfully scraped "
                 ++ decimal (N.of_nat (length (first :: rest))) ++ u " reviews")
              filename (length (first :: rest)) (app_name first);
          status := 200 |},
       Some {| filepath := u "/tmp/" ++ filename; header := columns;
               rows := map row_of (first :: rest) |})
  end.
Proof.
  intros Hne Hok Hsr; unfold scrape; cbv zeta.
  destruct (url_of req) as [|c s] eqn:Hurl; [now elim Hne|].
  now rewrite Hok, Hsr.
Qed.

(** C5, the claim as stated fails: a well-formed URL of no known store, and
    a Google Play URL with no identifier, are both answered with status
    500. *)
Lemma scrape_value_errors_not_400 :
  let unsupported :=
    {| body_url := Some (u "https://example.com/app");
       body_max_reviews := None |} in
  let no_id :=
    {| body_url := Some (u "https://play.google.com/store/apps");
       body_max_reviews := None |} in
  (urlparse_ok Sample.bare (url_of unsupported) = true
   /\ detect_platform (url_of unsupported) = None
   /\ status (fst (scrape Sample.bare unsupported)) = 500%Z)
  /\ (urlparse_ok Sample.bare (url_of no_id) = true
      /\ detect_platform (url_of no_id) = Some google_play
      /\ extract_app_id (unicode_Nd Sample.bare) (url_of no_id) google_play
         = None
      /\ status (fst (scrape Sample.bare no_id)) = 500%Z).
Proof. repeat split; vm_compute; reflexivity. Qed.

(** C5, amended: for a request whose URL passes the validation, an
    unsupported platform and an identifier that cannot be extracted are
    both answered with status 500, and the body's [error] is the message
    of the [ValueError]; no file is written. *)
Theorem scrape_value_errors_are_500 (w : world) (req : request) :
  url_of req <> [] ->
  urlparse_ok w (url_of req) = true ->
  (detect_platform (url_of req) = None ->
   scrape w req
   = ({| json := error_body (u
           "Unsupported URL. Please provide a Google Play Store or Apple App Store URL.");
         status := 500 |}, None))
  /\ (forall p,
        detect_platform (url_of req) = Some p ->
        extract_app_id (unicode_Nd w) (url_of req) p = None ->
        scrape w req
        = ({| json := error_body (u "Could not extract app ID from URL.");
              status := 500 |}, None)).
Proof.
  intros Hne Hok; split.
  - intros Hp.
    apply (@scrape_raises w req (ValueError _) 0%nat Hne Hok).
    unfold scrape_reviews; now rewrite Hp.
  - intros p Hp Hid.
    apply (@scrape_raises w req (ValueError _) 0%nat Hne Hok).
    unfold scrape_reviews; now rewrite Hp, Hid.
Qed.

(** The unsupported URL [https://example.com/app], answered with 500. *)
Lemma scrape_value_errors_are_500_witness :
  let req :=
    {| body_url := Some (u "https://example.com/app");
       body_max_reviews := None |} in
  url_of req <> []
  /\ urlparse_ok Sample.bare (url_of req) = true
  /\ scrape Sample.bare req
     = ({| json := error_body (u
             "Unsupported URL. Please provide a Google Play Store or Apple App Store URL.");
           status := 500 |}, None).
Proof.
  assert (Hne : url_of {| body_url := Some (u "https://example.com/app");
                          body_max_reviews := None |} <> [])
    by (vm_compute; discriminate).
  split; [exact Hne|split; [reflexivity|]].
  apply (proj1 (scrape_value_errors_are_500 Sample.bare _ Hne eq_refl)).
  reflexivity.
Defined.

Lemma limit_prefix {A} (max_reviews : option Z) (l : list A) :
  exists dropped, l = limit max_reviews l ++ dropped.
Proof.
  unfold limit, slice_to; destruct max_reviews as [n|]; [|exists []; symmetry; apply app_nil_r].
  destruct (truthy (Some n) && (n <? Z.of_nat (length l))%Z);
    [|exists []; symmetry; apply app_nil_r].
  destruct (0 <=? n)%Z; eexists; symmetry; apply firstn_skipn.
Qed.

(** ** The helpful count *)

(** C7, the claim as stated fails: with [app_store_scraper] missing, the
    App Store fetcher returns a record labelled [Apple App Store] whose
    helpful count is 15. *)
Lemma app_store_fallback_helpful_count :
  exists r,
    In r (fst (fetcher app_store Sample.bare (u "123456789") (Some 500%Z) 0))
    /\ platform r = u "Apple App Store"
    /\ helpful_count r = 15%Z.
Proof.
  eexists; split; [left; reflexivity|split; reflexivity].
Qed.

(** C7, amended: the records the App Store fetcher builds from an answer
    of its source all have helpful count 0 and the label
    [Apple App Store]; the three fallback records have helpful counts 15,
    8 and 22, in that order, under the label of the platform asked for;
    the [i]-th Google Play record built from an answer carries the
    [thumbsUpCount] of the [i]-th review of that answer. So the helpful
    count of every record is non-negative as soon as the thumbs-up counts
    the Google Play source reports are. *)
Theorem helpful_count_by_path (w : world) (p : platform_key) (app_id : str)
  (max_reviews : option Z) (k : nat) :
  let out := fst (fetcher p w app_id max_reviews k) in
  (p = app_store ->
   (exists upstream, source_returns w app_id max_reviews app_store upstream) ->
   forall r, In r out ->
     helpful_count r = 0%Z /\ platform r = u "Apple App Store")
  /\ (source_fails w p app_id max_reviews ->
      map helpful_count out = [15%Z; 8%Z; 22%Z]
      /\ forall r, In r out ->
           platform r =
             match p with
             | google_play => u "Google Play Store"
             | app_store => u "Apple App Store"
             end)
  /\ (forall pkg title rs,
        p = google_play ->
        google_play_scraper w = Some pkg ->
        GooglePlay.app pkg app_id = Ok title ->
        GooglePlay.reviews_all pkg app_id = Ok rs ->
        map helpful_count out
        = map GooglePlay.thumbsUpCount (firstn (length out) rs))
  /\ ((forall pkg rs raw,
         google_play_scraper w = Some pkg ->
         GooglePlay.reviews_all pkg app_id = Ok rs ->
         In raw rs -> (0 <= GooglePlay.thumbsUpCount raw)%Z) ->
      forall r, In r out -> (0 <= helpful_count r)%Z).
Proof.
  intros out.
  assert (Happ : p = app_store ->
            (exists upstream,
               source_returns w app_id max_reviews app_store upstream) ->
            forall r, In r out ->
              helpful_count r = 0%Z /\ platform r = u "Apple App Store").
  { intros -> [upstream Hret] r Hin; subst out.
    rewrite (fetcher_returns k Hret) in Hin; cbn [fst] in Hin.
    inversion Hret as [|pkg name rs Hpkg Hfetch E]; subst upstream.
    apply in_map_iff in Hin as (raw & <- & _); split; reflexivity. }
  assert (Hdemo : source_fails w p app_id max_reviews ->
            map helpful_count out = [15%Z; 8%Z; 22%Z]
            /\ forall r, In r out -> platform r = platform_name p).
  { intros Hfail; subst out; rewrite (fetcher_fails _ _ _ _ k Hfail).
    destruct (get_demo_data_eq w p app_id k)
      as (r1 & r2 & r3 & E & Hall & H1 & H2 & H3).
    rewrite E; cbn [fst map]; rewrite H1, H2, H3; split; [reflexivity|].
    intros r Hr; now apply Hall. }
  assert (Hgp : forall pkg title rs,
            p = google_play ->
            google_play_scraper w = Some pkg ->
            GooglePlay.app pkg app_id = Ok title ->
            GooglePlay.reviews_all pkg app_id = Ok rs ->
            out = map (google_play_record title) (firstn (length out) rs)).
  { intros pkg title rs -> Hpkg Htitle Hrs; subst out.
    rewrite (fetcher_returns k
               (@google_play_returns w app_id max_reviews pkg title rs
                  Hpkg Htitle Hrs)).
    cbn [fst]; rewrite limit_map, length_map.
    destruct (limit_prefix max_reviews rs) as [dropped E].
    remember (limit max_reviews rs) as l eqn:El; clear El.
    rewrite E, firstn_app, Nat.sub_diag, firstn_all; cbn [firstn].
    now rewrite app_nil_r. }
  split; [exact Happ|split; [|split]].
  - intros Hfail; destruct (Hdemo Hfail) as [Hc Hp]; split; [exact Hc|].
    intros r Hr; rewrite (Hp r Hr); now destruct p.
  - intros pkg title rs Hgoogle Hpkg Htitle Hrs.
    rewrite (Hgp pkg title rs Hgoogle Hpkg Htitle Hrs) at 1.
    now rewrite map_map.
  - intros Hup r Hin.
    destruct (source_fails_or_returns w p app_id max_reviews)
      as [Hfail|[upstream Hret]].
    + destruct (Hdemo Hfail) as [Hc _].
      assert (Hr : In (helpful_count r) (map helpful_count out))
        by now apply in_map.
      rewrite Hc in Hr; simpl in Hr.
      destruct Hr as [<-|[<-|[<-|[]]]]; lia.
    + destruct Hret as [pkg title rs Hpkg Htitle Hrs|pkg name rs Hpkg Hfetch].
      * rewrite (Hgp pkg title rs eq_refl Hpkg Htitle Hrs) in Hin.
        apply in_map_iff in Hin as (raw & <- & Hraw).
        apply In_firstn in Hraw; now apply (Hup pkg rs raw).
      * assert (H0 : helpful_count r = 0%Z); [|lia].
        apply Happ; [reflexivity| |exact Hin].
        eexists; eapply app_store_returns; eassumption.
Qed.

(** The fallback of the App Store fetcher, and a record it builds from an
    answer of its source. *)
Lemma helpful_count_by_path_witness :
  source_fails Sample.bare app_store (u "123456789") None
  /\ map helpful_count
       (fst (fetcher app_store Sample.bare (u "123456789") None 0))
     = [15%Z; 8%Z; 22%Z]
  /\ helpful_count (app_store_record (u "App ID 123456789") Sample.araw)
     = 0%Z.
Proof.
  split; [exact I|split].
  - apply (proj1 (proj2 (helpful_count_by_path Sample.bare app_store
                           (u "123456789") None 0)) I).
  - apply (proj1 (helpful_count_by_path Sample.with_app_store app_store
                    (u "123456789") None 0) eq_refl).
    + eexists; now eapply app_store_returns.
    + left; reflexivity.
Defined.

(** ** The file name *)

(** Sanitizing maps each space and each [/] to [_], then keeps the first
    50 characters. *)
Lemma sanitize_eq (name : str) :
  sanitize name
  = firstn 50
      (map (fun c => if ((c =? 32) || (c =? 47))%N then 95%N else c) name).
Proof.
  unfold sanitize, slice_to, replace_char.
  change (0 <=? 50)%Z with true; cbv iota.
  change (Z.to_nat 50) with 50%nat.
  rewrite map_map; f_equal.
  apply map_ext; intros c.
  destruct (c =? 32)%N eqn:H32; simpl; [reflexivity|].
  now destruct (c =? 47)%N.
Qed.

Lemma sanitize_length (name : str) :
  length (sanitize name) = Nat.min 50 (length name).
Proof.
  rewrite sanitize_eq, length_firstn, length_map; reflexivity.
Qed.

Lemma sanitize_clean (name : str) (c : char) :
  In c (sanitize name) -> c <> 32%N /\ c <> 47%N.
Proof.
  rewrite sanitize_eq; intros H.
  apply In_firstn, in_map_iff in H as (c0 & <- & _).
  destruct (c0 =? 32)%N eqn:H32; simpl; [split; discriminate|].
  destruct (c0 =? 47)%N eqn:H47; [split; discriminate|].
  now apply N.eqb_neq in H32, H47.
Qed.

(** A property checked on every number below [m]. *)
Lemma below_forall (P : N -> bool) (m : nat) :
  forallb P (map N.of_nat (seq 0 m)) = true ->
  forall n, (n < N.of_nat m)%N -> P n = true.
Proof.
  intros H n Hn; rewrite forallb_forall in H; apply H.
  rewrite <- (N2Nat.id n); apply in_map, in_seq; lia.
Qed.

(** [%m], [%d], [%H], [%M], [%S]: two digits. *)
Lemma zero_padded_2 (n : N) :
  (n < 100)%N ->
  zero_padded 2 n = [(48 + n / 10)%N; (48 + n mod 10)%N].
Proof.
  intros Hn.
  assert (H := below_forall
                 (fun n => if str_eq_dec (zero_padded 2 n)
                                [(48 + n / 10)%N; (48 + n mod 10)%N]
                           then true else false) 100).
  cbv beta in H; specialize (H ltac:(vm_compute; reflexivity) n Hn).
  now destruct (str_eq_dec (zero_padded 2 n)
                  [(48 + n / 10)%N; (48 + n mod 10)%N]).
Qed.

(** [%Y]: four digits. *)
Lemma zero_padded_4 (n : N) :
  (n < 10000)%N ->
  zero_padded 4 n
  = [(48 + n / 1000)%N; (48 + n / 100 mod 10)%N; (48 + n / 10 mod 10)%N;
     (48 + n mod 10)%N].
Proof.
  intros Hn.
  set (P := fun n : N =>
              if str_eq_dec (zero_padded 4 n)
                   [(48 + n / 1000)%N; (48 + n / 100 mod 10)%N;
                    (48 + n / 10 mod 10)%N; (48 + n mod 10)%N]
              then true else false).
  assert (H := below_forall
                 (fun a => forallb (fun b => P (100 * a + b)%N)
                             (map N.of_nat (seq 0 100))) 100).
  cbv beta in H; specialize (H ltac:(vm_compute; reflexivity) (n / 100)%N).
  assert (Ha : (n / 100 < N.of_nat 100)%N)
    by (apply N.Div0.div_lt_upper_bound; simpl; lia).
  specialize (H Ha).
  assert (Hb := @below_forall (fun b => P (100 * (n / 100) + b)%N) 100 H
                  (n mod 100)%N ltac:(apply N.mod_lt; discriminate)).
  cbv beta in Hb; rewrite <- N.div_mod in Hb by discriminate.
  unfold P in Hb.
  now destruct (str_eq_dec (zero_padded 4 n)
                  [(48 + n / 1000)%N; (48 + n / 100 mod 10)%N;
                   (48 + n / 10 mod 10)%N; (48 + n mod 10)%N]).
Qed.

(** The time stamp of a date spells its six fields, digit by digit. *)
Lemma strftime_stamp_digits (d : datetime) :
  is_date d ->
  strftime_stamp d
  = [(48 + year d / 1000)%N; (48 + year d / 100 mod 10)%N;
     (48 + year d / 10 mod 10)%N; (48 + year d mod 10)%N;
     (48 + month d / 10)%N; (48 + month d mod 10)%N;
     (48 + day d / 10)%N; (48 + day d mod 10)%N;
     95%N;
     (48 + hour d / 10)%N; (48 + hour d mod 10)%N;
     (48 + minute d / 10)%N; (48 + minute d mod 10)%N;
     (48 + second d / 10)%N; (48 + second d mod 10)%N].
Proof.
  intros (Hy & Hm & Hd & Hh & Hmi & Hs).
  unfold strftime_stamp, pad2.
  rewrite zero_padded_4 by lia.
  rewrite !zero_padded_2 by lia.
  reflexivity.
Qed.

(** C9: when a scrape yields a non-empty list, the file name generated is
    [reviews_<name>_<timestamp>.csv]. [<name>] is the first record's
    [app_name] with each space and each [/] replaced by [_], cut to its
    first 50 characters. [<timestamp>] is the clock as read at that point,
    printed as [%Y%m%d_%H%M%S]: the four digits of the year, two digits
    each for month and day, an underscore, and two digits each for hour,
    minute and second. That name is the one the response reports and the
    one the CSV is written under in [/tmp]. *)
Theorem scrape_filename (w : world) (req : request) (first : review)
  (rest : list review) (k : nat) :
  url_of req <> [] ->
  urlparse_ok w (url_of req) = true ->
  scrape_reviews w (url_of req) (max_reviews_of req) 0
  = (Ok (first :: rest), k) ->
  let name := sanitize (app_name first) in
  let filename :=
    u "reviews_" ++ name ++ u "_" ++ strftime_stamp (clock w k) ++ u ".csv" in
  (name = firstn 50
            (map (fun c => if ((c =? 32) || (c =? 47))%N then 95%N else c)
               (app_name first))
   /\ length name <= 50
   /\ forall c, In c name -> c <> 32%N /\ c <> 47%N)
  /\ match to_csv_error w (u "/tmp/" ++ filename) with
     | None =>
         exists message,
           scrape w req
           = ({| json := success_body message filename
                           (length (first :: rest)) (app_name first);
                 status := 200 |},
              Some {| filepath := u "/tmp/" ++ filename; header := columns;
                      rows := map row_of (first :: rest) |})
     | Some e => status (fst (scrape w req)) = 500%Z
     end
  /\ (is_date (clock w k) ->
      let t := clock w k in
      filename
      = u "reviews_" ++ name ++ u "_"
          ++ [(48 + year t / 1000)%N; (48 + year t / 100 mod 10)%N;
              (48 + year t / 10 mod 10)%N; (48 + year t mod 10)%N;
              (48 + month t / 10)%N; (48 + month t mod 10)%N;
              (48 + day t / 10)%N; (48 + day t mod 10)%N;
              95%N;
              (48 + hour t / 10)%N; (48 + hour t mod 10)%N;
              (48 + minute t / 10)%N; (48 + minute t mod 10)%N;
              (48 + second t / 10)%N; (48 + second t mod 10)%N]
          ++ u ".csv").
Proof.
  intros Hne Hok Hsr name filename; split; [|split].
  - split; [apply sanitize_eq|split; [|apply sanitize_clean]].
    subst name; rewrite sanitize_length; apply Nat.le_min_l.
  - rewrite (@scrape_exports w req first rest k Hne Hok Hsr).
    change (filename_of (sanitize (app_name first))
              (strftime_stamp (clock w k))) with filename.
    destruct (to_csv_error w (u "/tmp/" ++ filename)); [reflexivity|].
    eexists; reflexivity.
  - intros Hdate t; subst filename t.
    now rewrite (strftime_stamp_digits Hdate).
Qed.

(** The demo records for [com.demo.app] on a clock that ticks: they take
    the readings of 12:00:05, 12:00:06 and 12:00:07, and the file name
    carries the next one, 12:00:08. *)
Lemma scrape_filename_witness :
  let req :=
    {| body_url :=
         Some (u "https://play.google.com/store/apps/details?id=com.demo.app");
       body_max_reviews := None |} in
  url_of req <> []
  /\ is_date (clock Ticking.bare 3)
  /\ (exists message,
        fst (scrape Ticking.bare req)
        = {| json := success_body message
                       (u "reviews_Demo_App_(com.demo.app)_20240309_120008.csv")
                       3 (u "Demo App (com.demo.app)");
             status := 200 |})
  /\ u "reviews_Demo_App_(com.demo.app)_20240309_120008.csv"
     = u "reviews_" ++ sanitize (u "Demo App (com.demo.app)") ++ u "_"
         ++ [50; 48; 50; 52; 48; 51; 48; 57; 95; 49; 50; 48; 48; 48; 56]%N
         ++ u ".csv".
Proof.
  assert (Hne : url_of
                  {| body_url :=
                       Some (u "https://play.google.com/store/apps/details?id=com.demo.app");
                     body_max_reviews := None |} <> [])
    by (vm_compute; discriminate).
  assert (Hdate : is_date (clock Ticking.bare 3))
    by (repeat split; vm_compute; discriminate).
  split; [exact Hne|split; [exact Hdate|]].
  destruct (@scrape_filename Ticking.bare _ _ _ _ Hne eq_refl eq_refl)
    as (_ & [message E] & Hdigits).
  split.
  - exists message; rewrite E; reflexivity.
  - apply (Hdigits Hdate).
Defined.

(** ** A falsy limit *)

(** C10: on the Google Play path a falsy [max_reviews] ([None] or 0) skips
    the guard [if max_reviews and len(result) > max_reviews], so the
    fetcher returns one record for every review of the source's answer.
    A request body with [max_reviews: 0] on a Google Play URL is therefore
    answered with the count of the whole answer, not with zero records. *)
Theorem max_reviews_zero_disables_limit (w : world) (app_id : str)
  (pkg : GooglePlay.package) (title : str) (rs : list GooglePlay.raw) :
  google_play_scraper w = Some pkg ->
  GooglePlay.app pkg app_id = Ok title ->
  GooglePlay.reviews_all pkg app_id = Ok rs ->
  (forall max_reviews k,
     max_reviews = None \/ max_reviews = Some 0%Z ->
     scrape_google_play_reviews w app_id max_reviews k
     = (map (google_play_record title) rs, k)
     /\ length (fst (scrape_google_play_reviews w app_id max_reviews k))
        = length rs)
  /\ (forall req,
        body_max_reviews req = Some (Some 0%Z) ->
        url_of req <> [] ->
        urlparse_ok w (url_of req) = true ->
        detect_platform (url_of req) = Some google_play ->
        extract_app_id (unicode_Nd w) (url_of req) google_play
        = Some app_id ->
        rs <> [] ->
        (forall path, to_csv_error w path = None) ->
        exists message filename,
          fst (scrape w req)
          = {| json := success_body message filename (length rs) title;
               status := 200 |}).
Proof.
  intros Hpkg Happ Hrs; split.
  - intros max_reviews k; now apply google_play_falsy_limit with (pkg := pkg).
  - intros req Hmax Hne Hok Hp Hid Hrs_ne Hwrite.
    assert (Hsr := @scrape_reviews_fetches w (url_of req) (max_reviews_of req)
                     google_play app_id 0 Hp Hid).
    unfold max_reviews_of in Hsr; rewrite Hmax in Hsr; simpl fetcher in Hsr.
    destruct (@google_play_falsy_limit w app_id (Some 0%Z) 0 pkg title rs
                Hpkg Happ Hrs (or_intror eq_refl)) as [E _].
    rewrite E in Hsr; simpl fst in Hsr; simpl snd in Hsr.
    destruct rs as [|raw rs']; [now elim Hrs_ne|].
    simpl map in Hsr.
    assert (Hmr : max_reviews_of req = Some 0%Z)
      by (unfold max_reviews_of; now rewrite Hmax).
    rewrite <- Hmr in Hsr.
    rewrite (@scrape_exports w req _ _ _ Hne Hok Hsr), Hwrite.
    do 2 eexists; simpl fst; f_equal; f_equal.
    simpl; now rewrite length_map.
Qed.

(** A body with [max_reviews: 0] on a source that answers with two
    reviews. *)
Lemma max_reviews_zero_disables_limit_witness :
  let req :=
    {| body_url :=
         Some (u "https://play.google.com/store/apps/details?id=com.demo.app");
       body_max_reviews := Some (Some 0%Z) |} in
  google_play_scraper Sample.with_google_play
  = Some {| GooglePlay.app := fun _ => Ok (u "Demo Title");
            GooglePlay.reviews_all :=
              fun _ => Ok [Sample.raw1; Sample.raw2] |}
  /\ scrape_google_play_reviews Sample.with_google_play (u "com.demo.app")
       (Some 0%Z) 0
     = (map (google_play_record (u "Demo Title")) [Sample.raw1; Sample.raw2],
        0%nat)
  /\ exists message filename,
       fst (scrape Sample.with_google_play req)
       = {| json := success_body message filename 2 (u "Demo Title");
            status := 200 |}.
Proof.
  pose proof (@max_reviews_zero_disables_limit Sample.with_google_play
                (u "com.demo.app") _ (u "Demo Title")
                [Sample.raw1; Sample.raw2] eq_refl eq_refl eq_refl)
    as [Hfetch Hpost].
  split; [reflexivity|split].
  - apply (Hfetch (Some 0%Z) 0%nat); now right.
  - apply Hpost; try reflexivity; discriminate.
Defined.

(** End to end, as the spec's example has it: with the Google Play package
    missing, a request for [com.demo.app] is answered with 200 and the
    three demo records. *)
Lemma scrape_demo_end_to_end :
  exists message filename,
    fst (scrape Sample.bare
           {| body_url :=
                Some (u "https://play.google.com/store/apps/details?id=com.demo.app");
              body_max_reviews := None |})
    = {| json := success_body message filename 3
                   (u "Demo App (com.demo.app)");
         status := 200 |}.
Proof. do 2 eexists; vm_compute; reflexivity. Qed.

(** A body with no [url], or a URL the validation refuses, is a 400. *)
Lemma scrape_bad_url_is_400 (w : world) (req : request) :
  url_of req = [] \/ urlparse_ok w (url_of req) = false ->
  status (fst (scrape w req)) = 400%Z.
Proof.
  unfold scrape; cbv zeta.
  destruct (url_of req) as [|c s]; [reflexivity|].
  intros [H|H]; [discriminate|now rewrite H].
Qed.

(** ** The exported table *)

(** A row determines its review: the seven cells are the seven fields, in
    the order of the header. *)
Lemma row_of_injective (r1 r2 : review) : row_of r1 = row_of r2 -> r1 = r2.
Proof.
  destruct r1, r2; unfold row_of; simpl.
  intros [= -> -> -> -> -> -> ->]; reflexivity.
Qed.

(** The table handed to pandas has the seven field names as its header
    and one row of seven cells for each review. *)
Lemma exported_table_shape (reviews : list review) :
  length columns = 7
  /\ length (map row_of reviews) = length reviews
  /\ Forall (fun row => length row = 7) (map row_of reviews).
Proof.
  split; [reflexivity|split; [apply length_map|]].
  apply Forall_forall; intros row H.
  apply in_map_iff in H as (r & <- & _); reflexivity.
Qed.

(** * Further properties *)

(** ** Identifier extraction, in general *)

Lemma greedy_run_nil_iff (cls : char -> bool) (s : str) :
  Re.greedy_run cls s = [] <-> stops cls s.
Proof.
  destruct s as [|c s]; simpl; [tauto|].
  destruct (cls c); split; intros H; try reflexivity; discriminate.
Qed.

(** An attempt fails exactly when the text does not read [lit], or reads
    [lit] with nothing of the class after it. *)
Lemma match_here_None_iff (lit : str) (cls : char -> bool) (s : str) :
  Re.match_here lit cls s = None <->
  forall post, s = lit ++ post -> stops cls post.
Proof.
  unfold Re.match_here; split.
  - intros H post ->.
    rewrite startswith_app, skipn_lit_app in H.
    apply greedy_run_nil_iff.
    destruct (Re.greedy_run cls post); [reflexivity|discriminate].
  - intros H.
    destruct (startswith lit s) eqn:Hs; [|reflexivity].
    apply startswith_inv in Hs as [post ->].
    rewrite skipn_lit_app.
    now rewrite (proj2 (greedy_run_nil_iff cls post) (H post eq_refl)).
Qed.

(** The literal and the class of each platform's pattern. *)
Lemma extract_app_id_search (nd : char -> bool) (url : str) (p : platform_key) :
  extract_app_id nd url p =
  Re.search
    (match p with google_play => u "id=" | app_store => u "id" end)
    (match p with google_play => Re.not_amp | app_store => Re.digit nd end)
    url.
Proof. now destruct p. Qed.

(** X1: [extract_app_id] returns [None] exactly when no occurrence of the
    literal ([id=] for Google Play, [id] for the App Store) is followed by
    a character of the value: every occurrence is at the end of the URL,
    or before [&] (Google Play), or before a non-digit (App Store). *)
Theorem extract_app_id_None_iff (nd : char -> bool) (url : str)
  (p : platform_key) :
  extract_app_id nd url p = None <->
  forall pre post,
    url = pre
          ++ match p with google_play => u "id=" | app_store => u "id" end
          ++ post ->
    stops match p with google_play => Re.not_amp | app_store => Re.digit nd end
      post.
Proof.
  rewrite extract_app_id_search, search_None_iff; split.
  - intros H pre post E.
    apply (proj1 (match_here_None_iff _ _ _) (H pre _ E) post eq_refl).
  - intros H a b E.
    apply match_here_None_iff; intros post ->.
    now apply (H a post).
Qed.

(** X2: an identifier that is returned is not empty, is made of characters of
    the value only (no [&] for Google Play, digits for the App Store), and
    stands in the URL right after the literal. *)
Theorem extract_app_id_result_shape (nd : char -> bool) (url : str)
  (p : platform_key) (g : str) :
  extract_app_id nd url p = Some g ->
  g <> []
  /\ forallb match p with google_play => Re.not_amp | app_store => Re.digit nd end
       g = true
  /\ occurs (match p with google_play => u "id=" | app_store => u "id" end ++ g)
       url.
Proof.
  rewrite extract_app_id_search; intros H.
  apply search_Some_iff in H as (pre & rest & -> & Hm & _).
  apply match_here_iff in Hm as (post & -> & Hne & Hall & _).
  repeat split; trivial.
  exists pre, post; now rewrite <- app_assoc.
Qed.

Lemma extract_app_id_result_shape_witness :
  extract_app_id (fun _ => false)
    (u "https://apps.apple.com/us/app/video-editor/id123456789") app_store
  = Some (u "123456789")
  /\ occurs (u "id" ++ u "123456789")
       (u "https://apps.apple.com/us/app/video-editor/id123456789").
Proof.
  assert (H : extract_app_id (fun _ => false)
                (u "https://apps.apple.com/us/app/video-editor/id123456789")
                app_store = Some (u "123456789")) by reflexivity.
  split; [exact H|].
  apply (extract_app_id_result_shape _ _ _ H).
Defined.

(** X3: when [id=] does not occur before the [id] parameter, the Google Play
    identifier is that parameter's value: the text after [id=] up to the
    next [&], or to the end of the URL. *)
Theorem extract_app_id_google_play_first_id (nd : char -> bool)
  (pre g post : str) :
  ~ occurs (u "id=") pre ->
  g <> [] ->
  forallb Re.not_amp g = true ->
  stops Re.not_amp post ->
  extract_app_id nd (pre ++ u "id=" ++ g ++ post) google_play = Some g.
Proof.
  intros Hpre Hne Hall Hst.
  apply extract_app_id_google_play_spec.
  exists pre, post; repeat split; trivial.
  intros a b -> Hb.
  apply match_here_None_iff; intros post' E.
  exfalso; apply Hpre.
  destruct b as [|c1 [|c2 [|c3 b']]]; [now elim Hb| | |].
  - vm_compute in E; injection E as -> E2 _; discriminate E2.
  - vm_compute in E; injection E as -> -> E3 _; discriminate E3.
  - change (u "id=" ++ post') with (105%N :: 100%N :: 61%N :: post') in E.
    simpl in E; injection E as -> -> -> _.
    now exists a, b'.
Qed.

Lemma extract_app_id_google_play_first_id_witness :
  ~ occurs (u "id=") (u "https://play.google.com/store/apps/details?hl=en&")
  /\ extract_app_id (fun _ => false)
       (u "https://play.google.com/store/apps/details?hl=en&"
          ++ u "id=" ++ u "com.example.app" ++ u "&other=1")
       google_play
     = Some (u "com.example.app").
Proof.
  assert (H : ~ occurs (u "id=")
                (u "https://play.google.com/store/apps/details?hl=en&"))
    by (apply contains_false_iff; reflexivity).
  split; [exact H|].
  apply (@extract_app_id_google_play_first_id (fun _ => false) _ _ _ H);
    [discriminate|reflexivity|reflexivity].
Defined.

(** X4: when no [id] before the last path segment is followed by a digit, the
    App Store identifier is the run of digits after that segment's [id]. *)
Theorem extract_app_id_app_store_first_number (nd : char -> bool)
  (pre g post : str) :
  (forall a c r, pre = a ++ u "id" ++ c :: r -> Re.digit nd c = false) ->
  g <> [] ->
  forallb (Re.digit nd) g = true ->
  stops (Re.digit nd) post ->
  extract_app_id nd (pre ++ u "id" ++ g ++ post) app_store = Some g.
Proof.
  intros Hpre Hne Hall Hst.
  apply extract_app_id_app_store_spec.
  exists pre, post; repeat split; trivial.
  intros a b -> Hb.
  apply match_here_None_iff; intros post' E.
  destruct b as [|c1 [|c2 [|c b']]]; [now elim Hb| | |].
  - vm_compute in E; injection E as -> E2 _; discriminate E2.
  - change (u "id" ++ post') with (105%N :: 100%N :: post') in E.
    simpl in E; injection E as -> -> <-.
    reflexivity.
  - change (u "id" ++ post') with (105%N :: 100%N :: post') in E.
    simpl in E; injection E as -> -> <-.
    simpl; now apply (Hpre a c b').
Qed.

Lemma extract_app_id_app_store_first_number_witness :
  extract_app_id (fun _ => false)
    (u "https://apps.apple.com/us/app/video-editor/") app_store = None
  /\ extract_app_id (fun _ => false)
       (u "https://apps.apple.com/us/app/video-editor/"
          ++ u "id" ++ u "123456789" ++ u "?mt=8")
       app_store
     = Some (u "123456789").
Proof.
  assert (H : extract_app_id (fun _ => false)
                (u "https://apps.apple.com/us/app/video-editor/") app_store
              = None) by reflexivity.
  split; [exact H|].
  apply (@extract_app_id_app_store_first_number (fun _ => false)
           (u "https://apps.apple.com/us/app/video-editor/")
           (u "123456789") (u "?mt=8"));
    [|discriminate|reflexivity|reflexivity].
  intros a c r E.
  assert (Hm := proj1 (search_None_iff _ _ _) H a (u "id" ++ c :: r) E).
  apply (proj1 (match_here_None_iff _ _ _) Hm (c :: r) eq_refl).
Defined.

(** ** The fetchers, on every path *)

(** X5: whatever the bound (positive, zero, [None] or negative), what a fetcher
    returns from an answer of its source is a prefix of that answer: the
    records keep the source's order, none is added, and only records at the
    end can be missing. *)
Theorem fetcher_returns_prefix (w : world) (p : platform_key) (app_id : str)
  (max_reviews : option Z) (k : nat) (upstream : list review) :
  source_returns w app_id max_reviews p upstream ->
  exists dropped,
    upstream = fst (fetcher p w app_id max_reviews k) ++ dropped.
Proof.
  intros Hret; rewrite (fetcher_returns k Hret); simpl fst.
  destruct p; [apply limit_prefix|exists []; symmetry; apply app_nil_r].
Qed.

Lemma fetcher_returns_prefix_witness :
  let upstream :=
    map (google_play_record (u "Demo Title")) [Sample.raw1; Sample.raw2] in
  source_returns Sample.with_google_play (u "com.demo.app") (Some 1%Z)
    google_play upstream
  /\ exists dropped,
       upstream
       = fst (fetcher google_play Sample.with_google_play (u "com.demo.app")
                (Some 1%Z) 0) ++ dropped.
Proof.
  assert (H : source_returns Sample.with_google_play (u "com.demo.app")
                (Some 1%Z) google_play
                (map (google_play_record (u "Demo Title"))
                   [Sample.raw1; Sample.raw2]))
    by now eapply google_play_returns.
  split; [exact H|].
  apply (fetcher_returns_prefix 0 H).
Defined.

(** X6: a negative [max_reviews = -m] is truthy and below every length, so the
    slice [result[:max_reviews]] of the Google Play fetcher drops the last
    [m] reviews of the answer: [len - m] records come back, none when
    [m >= len]. *)
Theorem google_play_negative_limit (w : world) (app_id : str) (n : Z)
  (k : nat) (upstream : list review) :
  source_returns w app_id (Some n) google_play upstream ->
  (n < 0)%Z ->
  let out := fst (fetcher google_play w app_id (Some n) k) in
  out = firstn (length upstream - Z.to_nat (- n)) upstream
  /\ length out = (length upstream - Z.to_nat (- n))%nat.
Proof.
  intros Hret Hn out; subst out.
  rewrite (fetcher_returns k Hret); cbn [fst].
  assert (E : limit (Some n) upstream
              = firstn (length upstream - Z.to_nat (- n)) upstream).
  { unfold limit, slice_to, truthy.
    replace (n =? 0)%Z with false by (symmetry; apply Z.eqb_neq; lia).
    replace (n <? Z.of_nat (length upstream))%Z with true
      by (symmetry; apply Z.ltb_lt; lia).
    replace (0 <=? n)%Z with false by (symmetry; apply Z.leb_gt; lia).
    simpl; f_equal; lia. }
  split; [exact E|].
  rewrite E, length_firstn; lia.
Qed.

Lemma google_play_negative_limit_witness :
  let upstream :=
    map (google_play_record (u "Demo Title")) [Sample.raw1; Sample.raw2] in
  source_returns Sample.with_google_play (u "com.demo.app") (Some (-1)%Z)
    google_play upstream
  /\ fst (fetcher google_play Sample.with_google_play (u "com.demo.app")
            (Some (-1)%Z) 0)
     = [google_play_record (u "Demo Title") Sample.raw1].
Proof.
  assert (H : source_returns Sample.with_google_play (u "com.demo.app")
                (Some (-1)%Z) google_play
                (map (google_play_record (u "Demo Title"))
                   [Sample.raw1; Sample.raw2]))
    by now eapply google_play_returns.
  split; [exact H|].
  apply (proj1 (@google_play_negative_limit _ _ (-1)%Z 0 _ H eq_refl)).
Defined.

(** X7: all the records of one fetch carry the display name of the platform
    asked for, and one and the same [app_name]: the first record's
    [app_name], which names the file, is the [app_name] of every row. *)
Theorem fetcher_uniform (w : world) (p : platform_key) (app_id : str)
  (max_reviews : option Z) (k : nat) (r1 r2 : review) :
  In r1 (fst (fetcher p w app_id max_reviews k)) ->
  In r2 (fst (fetcher p w app_id max_reviews k)) ->
  platform r1 = platform_name p
  /\ platform r2 = platform_name p
  /\ app_name r1 = app_name r2.
Proof.
  destruct (source_fails_or_returns w p app_id max_reviews)
    as [Hfail|[upstream Hret]].
  - rewrite (fetcher_fails _ _ _ _ k Hfail).
    destruct (get_demo_data_eq w p app_id k) as (d1 & d2 & d3 & E & Hall & _).
    rewrite E; simpl fst; intros H1 H2.
    destruct (Hall _ H1) as [-> ->], (Hall _ H2) as [-> ->]; auto.
  - rewrite (fetcher_returns k Hret); simpl fst.
    destruct Hret as [pkg title rs _ _ _|pkg name rs _ _]; intros H1 H2.
    + apply limit_incl, in_map_iff in H1 as (x1 & <- & _).
      apply limit_incl, in_map_iff in H2 as (x2 & <- & _).
      repeat split.
    + apply in_map_iff in H1 as (x1 & <- & _).
      apply in_map_iff in H2 as (x2 & <- & _).
      repeat split.
Qed.

Lemma fetcher_uniform_witness :
  let out :=
    fst (fetcher google_play Sample.with_google_play (u "com.demo.app")
           None 0) in
  In (google_play_record (u "Demo Title") Sample.raw1) out
  /\ In (google_play_record (u "Demo Title") Sample.raw2) out
  /\ platform (google_play_record (u "Demo Title") Sample.raw1)
     = platform_name google_play.
Proof.
  assert (H1 : In (google_play_record (u "Demo Title") Sample.raw1)
                 (fst (fetcher google_play Sample.with_google_play
                         (u "com.demo.app") None 0)))
    by (left; reflexivity).
  assert (H2 : In (google_play_record (u "Demo Title") Sample.raw2)
                 (fst (fetcher google_play Sample.with_google_play
                         (u "com.demo.app") None 0)))
    by (right; left; reflexivity).
  split; [exact H1|split; [exact H2|]].
  apply (proj1 (fetcher_uniform _ _ _ _ _ _ _ H1 H2)).
Defined.

(** ** [scrape_reviews] *)

(** X8: the only errors [scrape_reviews] lets out are its own two
    [ValueError]s, and it raises each exactly on its condition: the first
    when no platform is detected, the second when a platform is detected
    and no identifier is extracted. An [ImportError] or any other
    exception of a fetcher never leaves it. *)
Theorem scrape_reviews_raises_only_value_errors (w : world) (url : str)
  (max_reviews : option Z) (k : nat) (e : exn) :
  fst (scrape_reviews w url max_reviews k) = Raise e
  <-> (detect_platform url = None
       /\ e = ValueError (u
            "Unsupported URL. Please provide a Google Play Store or Apple App Store URL."))
      \/ (exists p,
            detect_platform url = Some p
            /\ extract_app_id (unicode_Nd w) url p = None
            /\ e = ValueError (u "Could not extract app ID from URL.")).
Proof.
  unfold scrape_reviews; split.
  - destruct (detect_platform url) as [p|] eqn:Hp.
    + destruct (extract_app_id (unicode_Nd w) url p) as [app_id|] eqn:Hid.
      * destruct app_id as [|c s];
          [now apply extract_app_id_nonempty in Hid|].
        unfold cbind, ret.
        destruct (fetcher p w (c :: s) max_reviews k); discriminate.
      * intros [= <-]; right; now exists p.
    + intros [= <-]; now left.
  - intros [[Hp ->]|(p & Hp & Hid & ->)].
    + now rewrite Hp.
    + now rewrite Hp, Hid.
Qed.

Lemma scrape_reviews_raises_only_value_errors_witness :
  detect_platform (u "https://example.com/app") = None
  /\ fst (scrape_reviews Sample.bare (u "https://example.com/app") None 0)
     = Raise (ValueError (u
         "Unsupported URL. Please provide a Google Play Store or Apple App Store URL.")).
Proof.
  split; [reflexivity|].
  apply (proj2 (scrape_reviews_raises_only_value_errors Sample.bare
                  (u "https://example.com/app") None 0 _)).
  left; split; reflexivity.
Defined.

(** ** The handler, case by case *)

(** The six ways through the handler. *)
Lemma scrape_cases (w : world) (req : request) :
  (url_of req = []
   /\ scrape w req
      = ({| json := error_body (u "URL is required"); status := 400 |}, None))
  \/ (url_of req <> [] /\ urlparse_ok w (url_of req) = false
      /\ scrape w req
         = ({| json := error_body (u "Invalid URL format"); status := 400 |},
            None))
  \/ (url_of req <> [] /\ urlparse_ok w (url_of req) = true
      /\ ((exists e k,
             scrape_reviews w (url_of req) (max_reviews_of req) 0 = (Raise e, k)
             /\ scrape w req
                = ({| json := error_body (str_of_exn e); status := 500 |}, None))
          \/ (exists k,
                scrape_reviews w (url_of req) (max_reviews_of req) 0 = (Ok [], k)
                /\ scrape w req
                   = ({| json :=
                           error_body (u "No reviews found or unable to scrape");
                         status := 404 |}, None))
          \/ (exists first rest k,
                scrape_reviews w (url_of req) (max_reviews_of req) 0
                = (Ok (first :: rest), k)
                /\ let filename :=
                     filename_of (sanitize (app_name first))
                       (strftime_stamp (clock w k)) in
                   (exists e,
                      to_csv_error w (u "/tmp/" ++ filename) = Some e
                      /\ scrape w req
                         = ({| json := error_body (str_of_exn e);
                               status := 500 |}, None))
                   \/ (to_csv_error w (u "/tmp/" ++ filename) = None
                       /\ scrape w req
                          = ({| json :=
                                  success_body
                                    (u "Successfully scraped "
                                       ++ decimal
                                            (N.of_nat (length (first :: rest)))
                                       ++ u " reviews")
                                    filename (length (first :: rest))
                                    (app_name first);
                                status := 200 |},
                             Some {| filepath := u "/tmp/" ++ filename;
                                     header := columns;
                                     rows := map row_of (first :: rest) |}))))).
Proof.
  destruct (url_of req) as [|c s] eqn:Hurl.
  - left; split; [reflexivity|].
    unfold scrape; cbv zeta; now rewrite Hurl.
  - right.
    assert (Hne : url_of req <> []) by (rewrite Hurl; discriminate).
    rewrite <- Hurl.
    destruct (urlparse_ok w (url_of req)) eqn:Hok.
    + right; repeat split; trivial.
      destruct (scrape_reviews w (url_of req) (max_reviews_of req) 0)
        as [[[|first rest]|e] k] eqn:Hsr.
      * right; left; exists k; split; [reflexivity|].
        now apply scrape_no_reviews with (k := k).
      * right; right; exists first, rest, k; split; [reflexivity|].
        assert (H := @scrape_exports w req first rest k Hne Hok Hsr).
        cbv zeta in H |- *.
        destruct (to_csv_error w
                    (u "/tmp/" ++ filename_of (sanitize (app_name first))
                                    (strftime_stamp (clock w k)))) as [e|].
        -- left; exists e; now split.
        -- right; now split.
      * left; exists e, k; split; [reflexivity|].
        now apply scrape_raises with (k := k).
    + left; repeat split; trivial.
      unfold scrape; cbv zeta; rewrite Hurl in *; now rewrite Hok.
Qed.

(** ** Whitespace around the URL *)

Lemma lstrip_head (s : str) (c : char) (r : str) :
  lstrip s = c :: r -> isspace c = false.
Proof.
  induction s as [|a s IH]; simpl; [discriminate|].
  destruct (isspace a) eqn:Ha; [exact IH|].
  now intros [= <- _].
Qed.

Lemma lstrip_spaces (ws s : str) :
  forallb isspace ws = true -> lstrip (ws ++ s) = lstrip s.
Proof.
  induction ws as [|a ws IH]; simpl; [reflexivity|].
  intros H; apply andb_true_iff in H as [Ha Hws].
  now rewrite Ha, IH.
Qed.

Lemma lstrip_nil_iff (s : str) : lstrip s = [] <-> forallb isspace s = true.
Proof.
  induction s as [|a s IH]; simpl; [tauto|].
  destruct (isspace a); simpl; [exact IH|].
  split; discriminate.
Qed.

Lemma lstrip_app_nonblank (s t : str) :
  lstrip s <> [] -> lstrip (s ++ t) = lstrip s ++ t.
Proof.
  induction s as [|a s IH]; simpl; [now intros H; elim H|].
  destruct (isspace a); [exact IH|reflexivity].
Qed.

Lemma forallb_rev {A} (f : A -> bool) (l : list A) :
  forallb f (rev l) = forallb f l.
Proof.
  induction l as [|a l IH]; simpl; [reflexivity|].
  rewrite forallb_app, IH; simpl.
  rewrite andb_true_r; apply andb_comm.
Qed.

Lemma strip_nil_iff (s : str) : strip s = [] <-> forallb isspace s = true.
Proof.
  unfold strip; split.
  - intros H.
    apply (f_equal (@rev char)) in H; rewrite rev_involutive in H; simpl in H.
    apply lstrip_nil_iff in H; rewrite forallb_rev in H.
    destruct (lstrip s) as [|c r] eqn:E; [now apply lstrip_nil_iff|].
    apply lstrip_head in E; simpl in H; now rewrite E in H.
  - intros H; apply lstrip_nil_iff in H; now rewrite H.
Qed.

Lemma strip_spaces (ws1 s ws2 : str) :
  forallb isspace ws1 = true -> forallb isspace ws2 = true ->
  strip (ws1 ++ s ++ ws2) = strip s.
Proof.
  intros H1 H2; unfold strip; rewrite lstrip_spaces by trivial.
  destruct (lstrip s) as [|c r] eqn:E.
  - apply lstrip_nil_iff in E.
    rewrite <- (app_nil_r (s ++ ws2)), <- app_assoc.
    rewrite lstrip_spaces by trivial.
    rewrite app_nil_r, (proj2 (lstrip_nil_iff ws2) H2); reflexivity.
  - rewrite lstrip_app_nonblank by (rewrite E; discriminate).
    rewrite E, rev_app_distr, lstrip_spaces; [reflexivity|].
    now rewrite forallb_rev.
Qed.

(** X9: white space before and after the URL of the body is ignored: the
    handler gives the same answer and writes the same file as for the
    bare URL. *)
Theorem scrape_ignores_surrounding_whitespace (w : world) (ws1 s ws2 : str)
  (max_reviews : option (option Z)) :
  forallb isspace ws1 = true ->
  forallb isspace ws2 = true ->
  scrape w {| body_url := Some (ws1 ++ s ++ ws2);
              body_max_reviews := max_reviews |}
  = scrape w {| body_url := Some s; body_max_reviews := max_reviews |}.
Proof.
  intros H1 H2.
  assert (Hurl : url_of {| body_url := Some (ws1 ++ s ++ ws2);
                           body_max_reviews := max_reviews |}
                 = url_of {| body_url := Some s;
                             body_max_reviews := max_reviews |})
    by (unfold url_of; cbn [body_url]; now apply strip_spaces).
  unfold scrape; cbv zeta; rewrite Hurl; reflexivity.
Qed.

Lemma scrape_ignores_surrounding_whitespace_witness :
  scrape Sample.bare
    {| body_url :=
         Some (u "  "
                 ++ u "https://play.google.com/store/apps/details?id=com.demo.app"
                 ++ [10%N]);
       body_max_reviews := None |}
  = scrape Sample.bare
      {| body_url :=
           Some (u "https://play.google.com/store/apps/details?id=com.demo.app");
         body_max_reviews := None |}.
Proof.
  apply (@scrape_ignores_surrounding_whitespace Sample.bare (u "  ") _ [10%N]
           None); reflexivity.
Defined.

(** X10: a body with no [url], or with a [url] made of white space only, is
    answered 400 [URL is required], and only such a body is. *)
Theorem scrape_url_required_iff (w : world) (req : request) :
  scrape w req
  = ({| json := error_body (u "URL is required"); status := 400 |}, None)
  <-> match body_url req with
      | None => True
      | Some s => forallb isspace s = true
      end.
Proof.
  assert (Hblank : url_of req = [] <->
            match body_url req with
            | None => True
            | Some s => forallb isspace s = true
            end).
  { unfold url_of; destruct (body_url req) as [s|];
      [apply strip_nil_iff|split; trivial]. }
  rewrite <- Hblank; split.
  - destruct (scrape_cases w req)
      as [[Hurl _]|[(_ & _ & E)|(_ & _ & [(e & k & _ & E)|[(k & _ & E)
           |(first & rest & k & _ & [(e & _ & E)|(_ & E)])]])]];
      trivial; rewrite E; intros H; discriminate H.
  - intros Hurl; unfold scrape; cbv zeta; now rewrite Hurl.
Qed.

(** ** Status codes *)

Ltac scrape_by_cases w req E :=
  destruct (scrape_cases w req)
    as [[? E]|[(? & ? & E)|(? & ? & [(? & ? & ? & E)|[(? & ? & E)
         |(? & ? & ? & ? & [(? & ? & E)|(? & E)])]])]].

(** X11: the answer is 400 exactly when the URL is missing or does not pass the
    validation; an unsupported platform or a missing identifier is never a
    400. *)
Theorem scrape_status_400_iff (w : world) (req : request) :
  status (fst (scrape w req)) = 400%Z
  <-> url_of req = [] \/ urlparse_ok w (url_of req) = false.
Proof.
  split.
  - scrape_by_cases w req E; rewrite E; simpl; intros Hs;
      try discriminate Hs; auto.
  - apply scrape_bad_url_is_400.
Qed.

(** X13: what a success answer says is what was written: the file is at
    [/tmp/<filename>], its header is the seven field names, it has
    [review_count] rows and at least one, the first row starts with the
    [app_name] reported, and the message spells the same count. *)
Theorem scrape_success_consistent (w : world) (req : request)
  (message filename : str) (review_count : nat) (name : str) :
  json (fst (scrape w req))
  = success_body message filename review_count name ->
  status (fst (scrape w req)) = 200%Z
  /\ message
     = u "Successfully scraped " ++ decimal (N.of_nat review_count)
         ++ u " reviews"
  /\ 1 <= review_count
  /\ exists row others,
       snd (scrape w req)
       = Some {| filepath := u "/tmp/" ++ filename; header := columns;
                 rows := (CStr name :: row) :: others |}
       /\ length ((CStr name :: row) :: others) = review_count.
Proof.
  scrape_by_cases w req E; rewrite E; simpl; intros Hj; try discriminate Hj.
  injection Hj as <- <- <- <-.
  repeat split; [lia|].
  do 2 eexists; split; [reflexivity|].
  simpl; now rewrite length_map.
Qed.

Lemma scrape_success_consistent_witness :
  let req :=
    {| body_url :=
         Some (u "https://play.google.com/store/apps/details?id=com.demo.app");
       body_max_reviews := None |} in
  json (fst (scrape Sample.bare req))
  = success_body (u "Successfully scraped 3 reviews")
      (u "reviews_Demo_App_(com.demo.app)_20240309_120005.csv") 3
      (u "Demo App (com.demo.app)")
  /\ status (fst (scrape Sample.bare req)) = 200%Z.
Proof.
  assert (H : json (fst (scrape Sample.bare
                  {| body_url :=
                       Some (u "https://play.google.com/store/apps/details?id=com.demo.app");
                     body_max_reviews := None |}))
              = success_body (u "Successfully scraped 3 reviews")
                  (u "reviews_Demo_App_(com.demo.app)_20240309_120005.csv") 3
                  (u "Demo App (com.demo.app)")) by reflexivity.
  split; [exact H|].
  apply (proj1 (scrape_success_consistent _ _ H)).
Defined.

(** X14: a 404 means that the source of the detected platform answered and
    that no record came of its answer; when the source fails, the demo
    records are there and the answer is never 404. *)
Theorem scrape_404_only_without_reviews (w : world) (req : request) :
  status (fst (scrape w req)) = 404%Z ->
  exists p app_id upstream,
    detect_platform (url_of req) = Some p
    /\ extract_app_id (unicode_Nd w) (url_of req) p = Some app_id
    /\ source_returns w app_id (max_reviews_of req) p upstream
    /\ fst (fetcher p w app_id (max_reviews_of req) 0) = [].
Proof.
  scrape_by_cases w req E; rewrite E; simpl; intros Hs; try discriminate Hs.
  match goal with
  | Hsr : scrape_reviews _ _ _ _ = (Ok [], _) |- _ => rename Hsr into Hrev
  end.
  destruct (detect_platform (url_of req)) as [p|] eqn:Hp;
    [|unfold scrape_reviews in Hrev; rewrite Hp in Hrev; discriminate Hrev].
  destruct (extract_app_id (unicode_Nd w) (url_of req) p) as [app_id|] eqn:Hid;
    [|unfold scrape_reviews in Hrev; rewrite Hp, Hid in Hrev; discriminate Hrev].
  rewrite (@scrape_reviews_fetches w (url_of req) (max_reviews_of req) p
             app_id 0 Hp Hid) in Hrev.
  injection Hrev as Hout _.
  exists p, app_id.
  destruct (source_fails_or_returns w p app_id (max_reviews_of req))
    as [Hfail|[upstream Hret]].
  - exfalso.
    rewrite (fetcher_fails _ _ _ _ 0 Hfail) in Hout.
    destruct (get_demo_data_eq w p app_id 0) as (r1 & r2 & r3 & Ed & _).
    rewrite Ed in Hout; discriminate Hout.
  - exists upstream; now repeat split.
Qed.

(** With [max_reviews: -2] the two reviews of the sample source are both
    dropped, and the answer is 404. *)
Lemma scrape_404_only_without_reviews_witness :
  let req :=
    {| body_url :=
         Some (u "https://play.google.com/store/apps/details?id=com.demo.app");
       body_max_reviews := Some (Some (-2)%Z) |} in
  status (fst (scrape Sample.with_google_play req)) = 404%Z
  /\ exists p app_id upstream,
       detect_platform (url_of req) = Some p
       /\ extract_app_id (unicode_Nd Sample.with_google_play) (url_of req) p
          = Some app_id
       /\ source_returns Sample.with_google_play app_id (max_reviews_of req)
            p upstream
       /\ fst (fetcher p Sample.with_google_play app_id (max_reviews_of req) 0)
          = [].
Proof.
  assert (H : status (fst (scrape Sample.with_google_play
                {| body_url :=
                     Some (u "https://play.google.com/store/apps/details?id=com.demo.app");
                   body_max_reviews := Some (Some (-2)%Z) |})) = 404%Z)
    by reflexivity.
  split; [exact H|].
  apply (scrape_404_only_without_reviews _ _ H).
Defined.



(** ** Characters of the file name *)

Lemma string_of_uint_digits (d : Decimal.uint) (c : char) :
  In c (u (NilEmpty.string_of_uint d)) -> (48 <= c <= 57)%N.
Proof.
  unfold u; induction d; simpl; try tauto;
    (intros [<-|H]; [vm_compute; split; discriminate|now apply IHd]).
Qed.

Lemma decimal_digits (n : N) (c : char) :
  In c (decimal n) -> (48 <= c <= 57)%N.
Proof.
  unfold decimal, NilZero.string_of_uint.
  destruct (N.to_uint n) eqn:E; try apply string_of_uint_digits.
  simpl; intros [<-|[]]; vm_compute; split; discriminate.
Qed.

Lemma zero_padded_digits (width : nat) (n : N) (c : char) :
  In c (zero_padded width n) -> (48 <= c <= 57)%N.
Proof.
  unfold zero_padded; intros H; apply in_app_or in H as [H|H].
  - apply repeat_spec in H; subst c; vm_compute; split; discriminate.
  - now apply decimal_digits in H.
Qed.

(** A time stamp is made of digits and one underscore. *)
Lemma strftime_stamp_chars (d : datetime) (c : char) :
  In c (strftime_stamp d) -> c = 95%N \/ (48 <= c <= 57)%N.
Proof.
  unfold strftime_stamp, pad2; intros H.
  repeat (apply in_app_or in H as [H|H];
          [first [right; now apply zero_padded_digits in H
                 |left; destruct H as [<-|[]]; reflexivity]|]).
  right; now apply zero_padded_digits in H.
Qed.

Lemma filename_of_chars (name : str) (d : datetime) (c : char) :
  In c (filename_of (sanitize name) (strftime_stamp d)) ->
  c <> 47%N /\ c <> 32%N.
Proof.
  unfold filename_of; intros H.
  apply in_app_or in H as [H|H].
  { revert c H; apply Forall_forall; vm_compute.
    repeat constructor; discriminate. }
  apply in_app_or in H as [H|H]; [now apply sanitize_clean in H|].
  apply in_app_or in H as [H|H].
  { destruct H as [<-|[]]; split; discriminate. }
  apply in_app_or in H as [H|H].
  - apply strftime_stamp_chars in H as [->|H]; [split; discriminate|].
    split; intros ->; destruct H as [H1 H2]; vm_compute in H1, H2;
      congruence.
  - revert c H; apply Forall_forall; vm_compute.
    repeat constructor; discriminate.
Qed.

(** X16: whatever the app is called, the file name a success answer reports
    contains no [/] and no space, starts with [reviews_] and ends with
    [.csv]; so [os.path.join('/tmp', filename)] stays in [/tmp]. *)
Theorem scrape_filename_is_plain (w : world) (req : request)
  (message filename : str) (review_count : nat) (name : str) :
  json (fst (scrape w req))
  = success_body message filename review_count name ->
  (forall c, In c filename -> c <> 47%N /\ c <> 32%N)
  /\ startswith (u "reviews_") filename = true
  /\ startswith (rev (u ".csv")) (rev filename) = true
  /\ tmp_path filename = u "/tmp/" ++ filename.
Proof.
  scrape_by_cases w req E; rewrite E; cbn [fst json]; intros Hj;
    try discriminate Hj.
  injection Hj as _ <- _ _.
  split; [intros c; apply filename_of_chars|].
  unfold filename_of; split; [apply startswith_app|split].
  - rewrite !rev_app_distr, <- !app_assoc; apply startswith_app.
  - reflexivity.
Qed.

Lemma scrape_filename_is_plain_witness :
  let req :=
    {| body_url :=
         Some (u "https://play.google.com/store/apps/details?id=com.demo.app");
       body_max_reviews := None |} in
  json (fst (scrape Sample.bare req))
  = success_body (u "Successfully scraped 3 reviews")
      (u "reviews_Demo_App_(com.demo.app)_20240309_120005.csv") 3
      (u "Demo App (com.demo.app)")
  /\ tmp_path (u "reviews_Demo_App_(com.demo.app)_20240309_120005.csv")
     = u "/tmp/" ++ u "reviews_Demo_App_(com.demo.app)_20240309_120005.csv".
Proof.
  assert (H : json (fst (scrape Sample.bare
                  {| body_url :=
                       Some (u "https://play.google.com/store/apps/details?id=com.demo.app");
                     body_max_reviews := None |}))
              = success_body (u "Successfully scraped 3 reviews")
                  (u "reviews_Demo_App_(com.demo.app)_20240309_120005.csv") 3
                  (u "Demo App (com.demo.app)")) by reflexivity.
  split; [exact H|].
  apply (proj2 (proj2 (proj2 (scrape_filename_is_plain _ _ H)))).
Defined.

(** ** Download *)

Lemma fs_lookup_write_same (fs : filesystem) (f : csv_file) :
  fs_lookup (fs_write fs f) (filepath f) = Some (Written f).
Proof.
  unfold fs_write; simpl.
  now destruct (str_eq_dec (filepath f) (filepath f)).
Qed.


(** The three ways a scrape acts on the file system: it does not get as
    far as the write; the write raises; the write is completed. *)
Lemma scrape_on_cases (w : world) (failure : str -> failed_write)
  (fs : filesystem) (req : request) :
  (write_target w req = None
   /\ snd (scrape w req) = None
   /\ scrape_on w failure fs req = (fst (scrape w req), fs)
   /\ (status (fst (scrape w req)) = 400%Z
       \/ status (fst (scrape w req)) = 404%Z
       \/ (status (fst (scrape w req)) = 500%Z
           /\ exists e,
                fst (scrape_reviews w (url_of req) (max_reviews_of req) 0)
                = Raise e)))
  \/ (exists first rest k,
        scrape_reviews w (url_of req) (max_reviews_of req) 0
        = (Ok (first :: rest), k)
        /\ let filename :=
             filename_of (sanitize (app_name first))
               (strftime_stamp (clock w k)) in
           write_target w req = Some (u "/tmp/" ++ filename)
           /\ ((exists e,
                  to_csv_error w (u "/tmp/" ++ filename) = Some e
                  /\ scrape w req
                     = ({| json := error_body (str_of_exn e);
                           status := 500 |}, None)
                  /\ scrape_on w failure fs req
                     = (fst (scrape w req),
                        match failure (u "/tmp/" ++ filename) with
                        | AfterOpen => (u "/tmp/" ++ filename, Incomplete) :: fs
                        | BeforeOpen => fs
                        end))
               \/ (exists message file,
                     scrape w req
                     = ({| json :=
                             success_body message filename
                               (length (first :: rest)) (app_name first);
                           status := 200 |}, Some file)
                     /\ file = {| filepath := u "/tmp/" ++ filename;
                                  header := columns;
                                  rows := map row_of (first :: rest) |}
                     /\ scrape_on w failure fs req
                        = (fst (scrape w req), fs_write fs file)))).
Proof.
  unfold scrape_on, write_target.
  destruct (url_of req) as [|c s] eqn:Hurl.
  - left.
    assert (E : scrape w req
                = ({| json := error_body (u "URL is required");
                      status := 400 |}, None))
      by (unfold scrape; cbv zeta; now rewrite Hurl).
    rewrite E; cbn [fst snd status].
    repeat (split; [reflexivity|]); left; reflexivity.
  - assert (Hne : url_of req <> []) by (rewrite Hurl; discriminate).
    rewrite <- Hurl.
    destruct (urlparse_ok w (url_of req)) eqn:Hok; cbn [negb].
    + destruct (scrape_reviews w (url_of req) (max_reviews_of req) 0)
        as [[[|first rest]|e] k] eqn:Hsr.
      * left; rewrite (@scrape_no_reviews w req k Hne Hok Hsr).
        cbn [fst snd status].
        repeat (split; [reflexivity|]); right; left; reflexivity.
      * right; exists first, rest, k; split; [reflexivity|].
        cbv zeta; split; [reflexivity|].
        assert (H := @scrape_exports w req first rest k Hne Hok Hsr).
        cbv zeta in H.
        destruct (to_csv_error w
                    (u "/tmp/" ++ filename_of (sanitize (app_name first))
                                    (strftime_stamp (clock w k)))) as [e|].
        -- left; exists e; rewrite H; cbn [fst snd].
           repeat (split; [reflexivity|]); reflexivity.
        -- right; do 2 eexists; rewrite H; cbn [fst snd].
           split; [reflexivity|split; reflexivity].
      * left; rewrite (@scrape_raises w req e k Hne Hok Hsr).
        cbn [fst snd status].
        repeat (split; [reflexivity|]).
        right; right; split; [reflexivity|now exists e].
    + left.
      assert (E : scrape w req
                  = ({| json := error_body (u "Invalid URL format");
                        status := 400 |}, None))
        by (unfold scrape; cbv zeta; rewrite Hurl in *; now rewrite Hok).
      rewrite E; cbn [fst snd status].
      repeat (split; [reflexivity|]); left; reflexivity.
Qed.

(** X12: the answer is 200 exactly when the table was written completely
    and is now the file at its path. An answer 400 or 404, and a 500 that
    stems from a [ValueError] of [scrape_reviews], leave the file system
    exactly as it was; only a 500 from a write that raised may not. *)
Theorem scrape_on_status_and_files (w : world)
  (failure : str -> failed_write) (fs : filesystem) (req : request) :
  (status (fst (scrape_on w failure fs req)) = 200%Z
   <-> exists f,
         snd (scrape w req) = Some f
         /\ fs_lookup (snd (scrape_on w failure fs req)) (filepath f)
            = Some (Written f))
  /\ (status (fst (scrape_on w failure fs req)) = 400%Z
      \/ status (fst (scrape_on w failure fs req)) = 404%Z ->
      snd (scrape_on w failure fs req) = fs)
  /\ ((exists e,
         fst (scrape_reviews w (url_of req) (max_reviews_of req) 0) = Raise e) ->
      snd (scrape_on w failure fs req) = fs).
Proof.
  destruct (scrape_on_cases w failure fs req)
    as [(_ & Hnone & E & Hs)
       |(first & rest & k & Hsr & _ & [(e & _ & Es & E)
                                      |(message & file & Es & _ & E)])];
    rewrite E; cbn [fst snd].
  - split; [|split; reflexivity].
    rewrite Hnone; split.
    + intros H200; destruct Hs as [Hs|[Hs|[Hs _]]]; rewrite Hs in H200;
        discriminate H200.
    + intros (f & Hf & _); discriminate Hf.
  - rewrite Es; cbn [fst snd status]; split; [|split].
    + split; [discriminate|intros (f & Hf & _); discriminate Hf].
    + intros [H|H]; discriminate H.
    + intros [e' He']; rewrite Hsr in He'; discriminate He'.
  - rewrite Es; cbn [fst snd status]; split; [|split].
    + split; [|reflexivity].
      intros _; exists file; split; [reflexivity|].
      apply fs_lookup_write_same.
    + intros [H|H]; discriminate H.
    + intros [e' He']; rewrite Hsr in He'; discriminate He'.
Qed.

(** A request for an unsupported URL leaves the file system alone, on a
    disk where a write would fail half-way. *)
Lemma scrape_on_status_and_files_witness :
  let req :=
    {| body_url := Some (u "https://example.com/app");
       body_max_reviews := None |} in
  let fs := [(u "/tmp/old.csv", Foreign)] in
  (exists e,
     fst (scrape_reviews Ticking.read_only (url_of req) (max_reviews_of req) 0)
     = Raise e)
  /\ snd (scrape_on Ticking.read_only (fun _ => AfterOpen) fs req) = fs.
Proof.
  assert (H : exists e,
            fst (scrape_reviews Ticking.read_only
                   (url_of {| body_url := Some (u "https://example.com/app");
                              body_max_reviews := None |})
                   (max_reviews_of
                      {| body_url := Some (u "https://example.com/app");
                         body_max_reviews := None |}) 0) = Raise e)
    by (eexists; reflexivity).
  split; [exact H|].
  apply (proj2 (proj2 (scrape_on_status_and_files Ticking.read_only
                         (fun _ => AfterOpen)
                         [(u "/tmp/old.csv", Foreign)] _)) H).
Defined.

(** X17: the file name of a success answer can be downloaded at once:
    whatever [/tmp] held before, also an older file of the same name,
    [download_file] serves under that name the table just written, with
    the seven field names as header and [review_count] rows. *)
Theorem download_after_scrape (send_file_error : str -> option exn)
  (w : world) (failure : str -> failed_write) (fs : filesystem)
  (req : request) (message filename : str) (review_count : nat)
  (name : str) :
  json (fst (scrape_on w failure fs req))
  = success_body message filename review_count name ->
  send_file_error (u "/tmp/" ++ filename) = None ->
  exists table,
    download_file send_file_error (snd (scrape_on w failure fs req)) filename
    = attachment filename
        (Written {| filepath := u "/tmp/" ++ filename; header := columns;
                    rows := table |})
    /\ length table = review_count
    /\ snd (scrape w req)
       = Some {| filepath := u "/tmp/" ++ filename; header := columns;
                 rows := table |}.
Proof.
  destruct (scrape_on_cases w failure fs req)
    as [(_ & _ & E & Hs)
       |(first & rest & k & Hsr & _ & [(e & _ & Es & E)
                                      |(message' & file & Es & Hfile & E)])];
    rewrite E; cbn [fst snd].
  - intros Hj; exfalso.
    assert (H200 : status (fst (scrape w req)) = 200%Z).
    { destruct (scrape_cases w req)
        as [[? E']|[(? & ? & E')|(? & ? & [(? & ? & ? & E')|[(? & ? & E')
             |(? & ? & ? & ? & [(? & ? & E')|(? & E')])]])]];
        rewrite E' in Hj |- *; cbn [fst json] in Hj; try discriminate Hj;
        reflexivity. }
    destruct Hs as [Hs|[Hs|[Hs _]]]; rewrite Hs in H200; discriminate H200.
  - rewrite Es; cbn [fst json]; intros Hj; discriminate Hj.
  - rewrite Es; cbn [fst snd json]; intros Hj Hsend.
    injection Hj as <- <- <- <-.
    exists (map row_of (first :: rest)); rewrite Hfile.
    split; [|split; [cbn [length]; now rewrite length_map|reflexivity]].
    unfold download_file; cbv zeta.
    change (tmp_path (filename_of (sanitize (app_name first))
                        (strftime_stamp (clock w k))))
      with (filepath
              {| filepath := u "/tmp/"
                             ++ filename_of (sanitize (app_name first))
                                  (strftime_stamp (clock w k));
                 header := columns;
                 rows := map row_of (first :: rest) |}).
    rewrite fs_lookup_write_same; cbn [filepath].
    now rewrite Hsend.
Qed.

Lemma download_after_scrape_witness :
  let req :=
    {| body_url :=
         Some (u "https://play.google.com/store/apps/details?id=com.demo.app");
       body_max_reviews := None |} in
  let filename := u "reviews_Demo_App_(com.demo.app)_20240309_120005.csv" in
  json (fst (scrape_on Sample.bare (fun _ => BeforeOpen) [] req))
  = success_body (u "Successfully scraped 3 reviews") filename 3
      (u "Demo App (com.demo.app)")
  /\ exists table,
       download_file (fun _ => None)
         (snd (scrape_on Sample.bare (fun _ => BeforeOpen) [] req)) filename
       = attachment filename
           (Written {| filepath := u "/tmp/" ++ filename; header := columns;
                       rows := table |})
       /\ length table = 3.
Proof.
  assert (H : json (fst (scrape_on Sample.bare (fun _ => BeforeOpen) []
                  {| body_url :=
                       Some (u "https://play.google.com/store/apps/details?id=com.demo.app");
                     body_max_reviews := None |}))
              = success_body (u "Successfully scraped 3 reviews")
                  (u "reviews_Demo_App_(com.demo.app)_20240309_120005.csv") 3
                  (u "Demo App (com.demo.app)")) by reflexivity.
  split; [exact H|].
  destruct (@download_after_scrape (fun _ => None) _ _ _ _ _ _ _ _ H eq_refl)
    as (table & Hd & Hlen & _).
  exists table; now split.
Defined.



(** What a service that starts from an empty [/tmp] can hold: under a path
    [/tmp/reviews_...], a complete table, or what a failed write left. *)
Lemma scrape_all_entries
  (requests : list (world * (str -> failed_write) * request))
  (fs : filesystem) :
  Forall (fun pe =>
            startswith (u "/tmp/reviews_") (fst pe) = true
            /\ (snd pe = Incomplete
                \/ exists f,
                     snd pe = Written f /\ filepath f = fst pe
                     /\ header f = columns /\ rows f <> [])) fs ->
  Forall (fun pe =>
            startswith (u "/tmp/reviews_") (fst pe) = true
            /\ (snd pe = Incomplete
                \/ exists f,
                     snd pe = Written f /\ filepath f = fst pe
                     /\ header f = columns /\ rows f <> []))
    (scrape_all fs requests).
Proof.
  revert fs; induction requests as [|[[w failure] req] rest IH]; intros fs Hfs;
    [exact Hfs|].
  simpl; apply IH.
  destruct (scrape_on_cases w failure fs req)
    as [(_ & _ & E & _)
       |(first & rest' & k & _ & _ & [(e & _ & _ & E)
                                     |(message & file & _ & Hfile & E)])];
    rewrite E; cbn [snd]; [exact Hfs| |].
  - destruct (failure _); [exact Hfs|].
    constructor; [|exact Hfs].
    cbn [fst snd]; split; [reflexivity|now left].
  - constructor; [|exact Hfs].
    rewrite Hfile; cbn [fst snd filepath]; split; [reflexivity|].
    right; eexists; repeat split; discriminate.
Qed.

Lemma fs_lookup_In (fs : filesystem) (path : str) (e : entry) :
  fs_lookup fs path = Some e -> In (path, e) fs.
Proof.
  induction fs as [|[p e'] fs IH]; simpl; [discriminate|].
  destruct (str_eq_dec p path) as [->|_]; [intros [= ->]; now left|].
  intros H; right; now apply IH.
Qed.

(** X19: on a [/tmp] that only this service writes to, whatever requests
    were scraped before and however their writes ended, a download that
    is served is served under the name asked for, from a path
    [/tmp/reviews_...]; what it serves is either a complete table a scrape
    wrote at that path, with the seven field names as header and at least
    one row, or what a write that raised left there. *)
Theorem download_serves_scrape_files (send_file_error : str -> option exn)
  (requests : list (world * (str -> failed_write) * request))
  (filename download_name : str) (e : entry) :
  download_file send_file_error (scrape_all [] requests) filename
  = attachment download_name e ->
  download_name = filename
  /\ startswith (u "/tmp/reviews_") (tmp_path filename) = true
  /\ (e = Incomplete
      \/ exists f,
           e = Written f /\ filepath f = tmp_path filename
           /\ header f = columns /\ rows f <> []).
Proof.
  unfold download_file; cbv zeta.
  destruct (fs_lookup (scrape_all [] requests) (tmp_path filename))
    as [e'|] eqn:Hl; [|discriminate].
  destruct (send_file_error (tmp_path filename)); [discriminate|].
  intros [= <- <-]; split; [reflexivity|].
  apply fs_lookup_In in Hl.
  assert (Hall := scrape_all_entries requests (Forall_nil _)).
  rewrite Forall_forall in Hall.
  apply (Hall _ Hl).
Qed.

(** Two requests for the same app: the first write raises after the file
    was opened, the second is completed, three seconds later. Both files
    are served, the first as what the failed write left. *)
Lemma download_serves_scrape_files_witness :
  let req :=
    {| body_url :=
         Some (u "https://play.google.com/store/apps/details?id=com.demo.app");
       body_max_reviews := None |} in
  let fs :=
    scrape_all []
      [(Ticking.read_only, fun _ => AfterOpen, req);
       (Sample.bare, fun _ => BeforeOpen, req)] in
  download_file (fun _ => None) fs
    (u "reviews_Demo_App_(com.demo.app)_20240309_120008.csv")
  = attachment (u "reviews_Demo_App_(com.demo.app)_20240309_120008.csv")
      Incomplete
  /\ exists f,
       download_file (fun _ => None) fs
         (u "reviews_Demo_App_(com.demo.app)_20240309_120005.csv")
       = attachment (u "reviews_Demo_App_(com.demo.app)_20240309_120005.csv")
           (Written f)
       /\ header f = columns.
Proof.
  split; [reflexivity|].
  eexists; split; [reflexivity|].
  destruct (@download_serves_scrape_files (fun _ => None)
              [(Ticking.read_only, fun _ => AfterOpen,
                {| body_url :=
                     Some (u "https://play.google.com/store/apps/details?id=com.demo.app");
                   body_max_reviews := None |});
               (Sample.bare, fun _ => BeforeOpen,
                {| body_url :=
                     Some (u "https://play.google.com/store/apps/details?id=com.demo.app");
                   body_max_reviews := None |})]
              (u "reviews_Demo_App_(com.demo.app)_20240309_120005.csv")
              _ _ eq_refl) as (_ & _ & [Hinc|(f & Hf & _ & Hh & _)]).
  - discriminate Hinc.
  - injection Hf as <-; exact Hh.
Defined.

(** ** The App Store path *)

(** X20: on the App Store path a falsy [max_reviews] ([None] or 0) is replaced
    by 500 before the source is asked: the fetcher does with it exactly
    what it does with [max_reviews = 500]. *)
Theorem app_store_falsy_limit_is_500 (w : world) (app_id : str)
  (max_reviews : option Z) (k : nat) :
  truthy max_reviews = false ->
  scrape_app_store_reviews w app_id max_reviews k
  = scrape_app_store_reviews w app_id (Some 500%Z) k.
Proof.
  intros Hf.
  assert (E : how_many max_reviews = how_many (Some 500%Z)).
  { unfold how_many; rewrite Hf; now destruct max_reviews. }
  unfold scrape_app_store_reviews, app_store_try; now rewrite E.
Qed.

Lemma app_store_falsy_limit_is_500_witness :
  truthy (Some 0%Z) = false
  /\ scrape_app_store_reviews Sample.with_app_store (u "123456789")
       (Some 0%Z) 0
     = scrape_app_store_reviews Sample.with_app_store (u "123456789")
         (Some 500%Z) 0.
Proof.
  split; [reflexivity|].
  apply (@app_store_falsy_limit_is_500 Sample.with_app_store (u "123456789")
           (Some 0%Z) 0 eq_refl).
Defined.

(** X21: an App Store scrape whose source answers with at least one review is
    answered 200. The count is the number of reviews the source holds,
    whatever [max_reviews] was; the app is named as the source names it,
    or [App ID <app_id>] when the source gives no name; every row written
    has helpful count 0 and the label [Apple App Store]. *)
Theorem scrape_app_store_success (w : world) (req : request)
  (pkg : AppStore.package) (app_id : str) (name : option str)
  (raws : list AppStore.raw) :
  url_of req <> [] ->
  urlparse_ok w (url_of req) = true ->
  detect_platform (url_of req) = Some app_store ->
  extract_app_id (unicode_Nd w) (url_of req) app_store = Some app_id ->
  app_store_scraper w = Some pkg ->
  AppStore.fetch pkg app_id (how_many (max_reviews_of req)) = Ok (name, raws) ->
  raws <> [] ->
  (forall path, to_csv_error w path = None) ->
  exists message filename file,
    scrape w req
    = ({| json :=
            success_body message filename (length raws)
              match name with
              | Some (c :: s) => c :: s
              | _ => u "App ID " ++ app_id
              end;
          status := 200 |}, Some file)
    /\ length (rows file) = length raws
    /\ forall row, In row (rows file) ->
         nth_error row 5 = Some (CInt 0)
         /\ nth_error row 6 = Some (CStr (u "Apple App Store")).
Proof.
  intros Hne Hok Hp Hid Hpkg Hfetch Hraws Hwrite.
  assert (Hsr := @scrape_reviews_fetches w (url_of req) (max_reviews_of req)
                   app_store app_id 0 Hp Hid).
  rewrite (fetcher_returns 0
             (@app_store_returns w app_id (max_reviews_of req) pkg name raws
                Hpkg Hfetch)) in Hsr.
  cbn [fst snd] in Hsr.
  destruct raws as [|raw raws']; [now elim Hraws|].
  cbn [map] in Hsr.
  rewrite (@scrape_exports w req _ _ _ Hne Hok Hsr), Hwrite.
  do 3 eexists; split; [|split].
  - cbn [length]; rewrite length_map.
    unfold app_store_name; reflexivity.
  - cbn [rows length map]; now rewrite !length_map.
  - cbn [rows map]; intros row [<-|Hrow]; [split; reflexivity|].
    apply in_map_iff in Hrow as (r & <- & Hr).
    apply in_map_iff in Hr as (x & <- & _).
    split; reflexivity.
Qed.

Lemma scrape_app_store_success_witness :
  let req :=
    {| body_url := Some (u "https://apps.apple.com/us/app/demo/id123456789");
       body_max_reviews := Some (Some 0%Z) |} in
  url_of req <> []
  /\ exists message filename file,
       scrape Sample.with_app_store req
       = ({| json :=
               success_body message filename 1 (u "App ID " ++ u "123456789");
             status := 200 |}, Some file).
Proof.
  assert (Hne : url_of
                  {| body_url :=
                       Some (u "https://apps.apple.com/us/app/demo/id123456789");
                     body_max_reviews := Some (Some 0%Z) |} <> [])
    by (vm_compute; discriminate).
  split; [exact Hne|].
  destruct (@scrape_app_store_success Sample.with_app_store _ _
              (u "123456789") None [Sample.araw]
              Hne eq_refl eq_refl eq_refl eq_refl eq_refl)
    as (message & filename & file & E & _);
    [discriminate|reflexivity|].
  exists message, filename, file; exact E.
Defined.

(** ** The name part of the file name *)

Lemma firstn_firstn_same {A} (n : nat) (l : list A) :
  firstn n (firstn n l) = firstn n l.
Proof. rewrite firstn_firstn; now rewrite Nat.min_id. Qed.

(** X22: only the first 50 characters of an app name reach the file name, and a
    name that is already sanitized is left as it is: names that agree on
    their first 50 characters, or differ only by spaces, [/] and [_] at
    the same places, give the same file name in the same second. *)
Theorem sanitize_first_50 (a b : str) :
  (firstn 50 a = firstn 50 b -> sanitize a = sanitize b)
  /\ sanitize (sanitize a) = sanitize a
  /\ (sanitize a = sanitize b ->
      forall d, filename_of (sanitize a) (strftime_stamp d)
                = filename_of (sanitize b) (strftime_stamp d)).
Proof.
  split; [|split].
  - intros H; rewrite !sanitize_eq, !firstn_map; f_equal; exact H.
  - rewrite (sanitize_eq (sanitize a)).
    rewrite (map_ext_in _ (fun c => c)).
    + rewrite map_id, sanitize_eq; apply firstn_firstn_same.
    + intros c Hc; apply sanitize_clean in Hc as [H32 H47].
      apply N.eqb_neq in H32, H47; now rewrite H32, H47.
  - now intros ->.
Qed.

Lemma sanitize_first_50_witness :
  sanitize (u "My App / Pro") = u "My_App___Pro"
  /\ sanitize (sanitize (u "My App / Pro")) = sanitize (u "My App / Pro").
Proof.
  split; [reflexivity|].
  apply (proj1 (proj2 (sanitize_first_50 (u "My App / Pro") []))).
Defined.
